(** * libwatchman: the query-expression compiler and the reply decoders

    A shallow embedding of [watchman.c].  The expression algebra and its
    compiler [to_json] are pure functions; the protocol codec and the result
    decoders thread the connection's stream, the caller's error object and a
    count of live heap blocks through a small state monad.

    The JSON library (jansson), the stream and the declarations of
    [watchman.h] are outside [watchman.c]: the parser, the serialisers and
    the values that depend on the header's struct layout are section
    variables; the enumerations and the two result structs are modelled from
    the specification and from the tables of [watchman.c] that they index. *)

From Stdlib Require Import ZArith Lia Ascii String DecimalString.
From stdpp Require Import base list strings.

Set Warnings "-register-all".

Local Open Scope Z_scope.
Local Open Scope string_scope.

(** ** JSON values (jansson's [json_t]) *)

Inductive json : Type :=
| JNull
| JTrue
| JFalse
| JInteger (n : Z)
| JReal (repr : string)
| JString (s : string)
| JArray (items : list json)
| JObject (members : list (string * json)).

(** A [json_t *] may be [NULL]: such pointers are [option json]. *)

Definition json_is_object (j : option json) : bool :=
  match j with Some (JObject _) => true | _ => false end.

Definition json_is_array (j : option json) : bool :=
  match j with Some (JArray _) => true | _ => false end.

Definition json_is_string (j : option json) : bool :=
  match j with Some (JString _) => true | _ => false end.

Definition json_is_boolean (j : option json) : bool :=
  match j with Some JTrue | Some JFalse => true | _ => false end.

(** [json_is_true] as a C truth value. *)
Definition json_is_true (j : option json) : Z :=
  match j with Some JTrue => 1 | _ => 0 end.

(** [json_string_value]: [NULL] unless the value is a string. *)
Definition json_string_value (j : option json) : option string :=
  match j with Some (JString s) => Some s | _ => None end.

(** [json_integer_value]: [0] unless the value is an integer. *)
Definition json_integer_value (j : option json) : Z :=
  match j with Some (JInteger n) => n | _ => 0 end.

Fixpoint assoc_get (key : string) (members : list (string * json)) : option json :=
  match members with
  | [] => None
  | (k, v) :: rest => if String.eqb k key then Some v else assoc_get key rest
  end.

(** [json_object_get]: [NULL] when the value is no object or lacks the key. *)
Definition json_object_get (j : option json) (key : string) : option json :=
  match j with Some (JObject members) => assoc_get key members | _ => None end.

Definition json_array_size (j : option json) : nat :=
  match j with Some (JArray items) => length items | _ => 0%nat end.

Definition json_array_get (j : option json) (i : nat) : option json :=
  match j with Some (JArray items) => items !! i | _ => None end.

(** [json_string]: [NULL] for a [NULL] pointer.  The model agrees with
    jansson on the C strings that jansson accepts, those that are
    well-formed UTF-8 ([utf8_text] below); for any other byte sequence
    jansson returns [NULL], which the model does not follow.  A statement
    that depends on it carries the premise [utf8_text]. *)
Definition json_string (value : option string) : option json :=
  match value with Some s => Some (JString s) | None => None end.

Definition json_integer (n : Z) : option json := Some (JInteger n).

(** [json_array_append_new] on the items of an array under construction:
    appending [NULL] fails and leaves the array as it was. *)
Definition json_array_append_new (items : list json) (value : option json) : list json :=
  match value with Some v => items ++ [v] | None => items end.

(** ** Enumerations of [watchman.h] *)

(** Modelled from the spec: [enum watchman_expression_type] ([watchman.h] is
    absent); the constants are those [to_json] switches on, in the order of
    the table [ty_str] that [expr->ty] indexes. *)
Inductive watchman_expression_type : Type :=
| WATCHMAN_EXPR_TY_ALLOF
| WATCHMAN_EXPR_TY_ANYOF
| WATCHMAN_EXPR_TY_NOT
| WATCHMAN_EXPR_TY_TRUE
| WATCHMAN_EXPR_TY_FALSE
| WATCHMAN_EXPR_TY_SINCE
| WATCHMAN_EXPR_TY_SUFFIX
| WATCHMAN_EXPR_TY_MATCH
| WATCHMAN_EXPR_TY_IMATCH
| WATCHMAN_EXPR_TY_PCRE
| WATCHMAN_EXPR_TY_IPCRE
| WATCHMAN_EXPR_TY_NAME
| WATCHMAN_EXPR_TY_INAME
| WATCHMAN_EXPR_TY_TYPE
| WATCHMAN_EXPR_TY_EMPTY
| WATCHMAN_EXPR_TY_EXISTS.

Definition expression_type_value (ty : watchman_expression_type) : nat :=
  match ty with
  | WATCHMAN_EXPR_TY_ALLOF => 0
  | WATCHMAN_EXPR_TY_ANYOF => 1
  | WATCHMAN_EXPR_TY_NOT => 2
  | WATCHMAN_EXPR_TY_TRUE => 3
  | WATCHMAN_EXPR_TY_FALSE => 4
  | WATCHMAN_EXPR_TY_SINCE => 5
  | WATCHMAN_EXPR_TY_SUFFIX => 6
  | WATCHMAN_EXPR_TY_MATCH => 7
  | WATCHMAN_EXPR_TY_IMATCH => 8
  | WATCHMAN_EXPR_TY_PCRE => 9
  | WATCHMAN_EXPR_TY_IPCRE => 10
  | WATCHMAN_EXPR_TY_NAME => 11
  | WATCHMAN_EXPR_TY_INAME => 12
  | WATCHMAN_EXPR_TY_TYPE => 13
  | WATCHMAN_EXPR_TY_EMPTY => 14
  | WATCHMAN_EXPR_TY_EXISTS => 15
  end%nat.

(** Modelled from the spec: [enum watchman_clockspec] ([watchman.h] is
    absent): none, observed clock, mtime, ctime, numbered as the table
    [clockspec_str] lists them, none being the zero that [since_to_json]
    tests. *)
Inductive watchman_clockspec : Type :=
| WATCHMAN_CLOCKSPEC_DEFAULT
| WATCHMAN_CLOCKSPEC_OCLOCK
| WATCHMAN_CLOCKSPEC_MTIME
| WATCHMAN_CLOCKSPEC_CTIME.

Definition clockspec_value (spec : watchman_clockspec) : nat :=
  match spec with
  | WATCHMAN_CLOCKSPEC_DEFAULT => 0
  | WATCHMAN_CLOCKSPEC_OCLOCK => 1
  | WATCHMAN_CLOCKSPEC_MTIME => 2
  | WATCHMAN_CLOCKSPEC_CTIME => 3
  end%nat.

(** Modelled from the spec: [enum watchman_basename] ([watchman.h] is
    absent): none, basename, wholename, numbered as the table
    [basename_str] lists them. *)
Inductive watchman_basename : Type :=
| WATCHMAN_BASENAME_DEFAULT
| WATCHMAN_BASENAME_BASENAME
| WATCHMAN_BASENAME_WHOLENAME.

Definition basename_value (b : watchman_basename) : Z :=
  match b with
  | WATCHMAN_BASENAME_DEFAULT => 0
  | WATCHMAN_BASENAME_BASENAME => 1
  | WATCHMAN_BASENAME_WHOLENAME => 2
  end.

(** ** The string tables *)

Definition ty_str : list (option string) :=
  [ Some "allof"; Some "anyof"; Some "not"; Some "true"; Some "false";
    Some "since"; Some "suffix"; Some "match"; Some "imatch"; Some "pcre";
    Some "ipcre"; Some "name"; Some "iname"; Some "type"; Some "empty";
    Some "exists" ].

Definition clockspec_str : list (option string) :=
  [ None; Some "oclock"; Some "mtime"; Some "ctime" ].

Definition basename_str : list (option string) :=
  [ None; Some "basename"; Some "wholename" ].

(** [table[i]] as a [char *].  An index outside the table reads past it in
    C, which is undefined; the model's [NULL] there has no counterpart in
    the code.  The only such read [to_json] can make is the scope of a name
    node, and a statement that depends on it carries the premise
    [scope_reads_in_range]. *)
Definition table_at (table : list (option string)) (i : nat) : option string :=
  match table !! i with Some entry => entry | None => None end.

Definition table_at_int (table : list (option string)) (i : Z) : option string :=
  if (i <? 0)%Z then None else table_at table (Z.to_nat i).

(** ** Expressions *)

Inductive union_kind : Type := UNION_ALLOF | UNION_ANYOF.
Inductive static_kind : Type := STATIC_EMPTY | STATIC_TRUE | STATIC_FALSE | STATIC_EXISTS.
Inductive match_kind : Type := MATCH_MATCH | MATCH_IMATCH | MATCH_PCRE | MATCH_IPCRE.
Inductive name_kind : Type := NAME_NAME | NAME_INAME.

(** The member [t] of [since_expr] together with its flag [is_time_t]. *)
Inductive since_value : Type :=
| since_string (since : string)
| since_time_t (time : Z).

(** [watchman_expression_t]: the tag [ty] and the member of the union [e]
    that the constructors of [watchman.c] fill for it.  An array of [nr]
    entries is a list of length [nr].  A name node holds what
    [watchman_names_expression] writes, [nr] and [names]. *)
Inductive watchman_expression : Type :=
| union_expr (kind : union_kind) (clauses : list watchman_expression)
| not_expr (clause : watchman_expression)
| static_expr (kind : static_kind)
| since_expr (t : since_value) (clockspec : watchman_clockspec)
| suffix_expr (suffix : string)
| match_expr (kind : match_kind) (pattern : string) (basename : watchman_basename)
| name_expr (kind : name_kind) (names : list string)
| type_expr (type : ascii).

Definition expr_ty (expr : watchman_expression) : watchman_expression_type :=
  match expr with
  | union_expr UNION_ALLOF _ => WATCHMAN_EXPR_TY_ALLOF
  | union_expr UNION_ANYOF _ => WATCHMAN_EXPR_TY_ANYOF
  | not_expr _ => WATCHMAN_EXPR_TY_NOT
  | static_expr STATIC_EMPTY => WATCHMAN_EXPR_TY_EMPTY
  | static_expr STATIC_TRUE => WATCHMAN_EXPR_TY_TRUE
  | static_expr STATIC_FALSE => WATCHMAN_EXPR_TY_FALSE
  | static_expr STATIC_EXISTS => WATCHMAN_EXPR_TY_EXISTS
  | since_expr _ _ => WATCHMAN_EXPR_TY_SINCE
  | suffix_expr _ => WATCHMAN_EXPR_TY_SUFFIX
  | match_expr MATCH_MATCH _ _ => WATCHMAN_EXPR_TY_MATCH
  | match_expr MATCH_IMATCH _ _ => WATCHMAN_EXPR_TY_IMATCH
  | match_expr MATCH_PCRE _ _ => WATCHMAN_EXPR_TY_PCRE
  | match_expr MATCH_IPCRE _ _ => WATCHMAN_EXPR_TY_IPCRE
  | name_expr NAME_NAME _ => WATCHMAN_EXPR_TY_NAME
  | name_expr NAME_INAME _ => WATCHMAN_EXPR_TY_INAME
  | type_expr _ => WATCHMAN_EXPR_TY_TYPE
  end.

(** What a constructor call hands back: a node; a failed [assert], which
    aborts; no value at all ([return ;] in a function that declares a
    result); a read or write outside what the caller's array or [malloc]
    covers, the undefined behaviour of C; or a node whose count is negative
    and whose array is the [NULL] that [malloc] gave for it: every loop
    over such a node runs no round, so it is read like [a], but it owns no
    block for the array. *)
Inductive built (A : Type) : Type :=
| Returned (a : A)
| AssertFailed
| NoValue
| OutOfBounds
| ReturnedNullArray (a : A).

Arguments Returned {A} a.
Arguments AssertFailed {A}.
Arguments NoValue {A}.
Arguments OutOfBounds {A}.
Arguments ReturnedNullArray {A} a.

(** The constructors below are those of a build with assertions; the two
    macros that take a count, [UNION_EXPR] and [NAMES_EXPR], are given for
    both builds. *)
Definition watchman_since_expression
    (since : option string) (spec : watchman_clockspec) : built watchman_expression :=
  match since with
  | None => AssertFailed
  | Some s => Returned (since_expr (since_string s) spec)
  end.

Definition watchman_since_expression_time_t
    (time : Z) (spec : watchman_clockspec) : built watchman_expression :=
  Returned (since_expr (since_time_t time) spec).

Definition watchman_not_expression
    (expression : watchman_expression) : built watchman_expression :=
  NoValue.

(** The macro [UNION_EXPR], in a build that defines [NDEBUG] ([ndebug],
    every [assert] compiled out) or not.  [expressions] is the caller's
    array, as many pointers as can be read there ([None] is [NULL]);
    [expression_words] is [sizeof(watchman_expression_t)] counted in
    pointers, from the absent [watchman.h].  [memcpy] is given
    [nr * sizeof(watchman_expression_t)] bytes, so the call reads
    [nr * expression_words] pointers of the array and is defined only when
    the array has that many; the node keeps the first [nr].  A negative
    [nr] makes the size wrap, [malloc] give [NULL] and [memcpy] write
    there.  [malloc(0)] is taken to hand out a block. *)
Definition UNION_EXPR_build (ndebug : bool) (expression_words : positive)
    (kind : union_kind) (nr : Z) (expressions : option (list watchman_expression))
    : built watchman_expression :=
  if negb ndebug && (nr =? 0)%Z then AssertFailed else
  match expressions with
  | None => if negb ndebug then AssertFailed else OutOfBounds
  | Some es =>
      if (0 <=? nr)%Z && (nr * Z.pos expression_words <=? Z.of_nat (length es))%Z
      then Returned (union_expr kind (take (Z.to_nat nr) es))
      else OutOfBounds
  end.

(** The build with assertions. *)
Definition UNION_EXPR := UNION_EXPR_build false.

Definition watchman_allof_expression (expression_words : positive) :=
  UNION_EXPR expression_words UNION_ALLOF.
Definition watchman_anyof_expression (expression_words : positive) :=
  UNION_EXPR expression_words UNION_ANYOF.

(** The macro [STATIC_EXPR]. *)
Definition STATIC_EXPR (kind : static_kind) : built watchman_expression :=
  Returned (static_expr kind).

Definition watchman_empty_expression := STATIC_EXPR STATIC_EMPTY.
Definition watchman_true_expression := STATIC_EXPR STATIC_TRUE.
Definition watchman_false_expression := STATIC_EXPR STATIC_FALSE.
Definition watchman_exists_expression := STATIC_EXPR STATIC_EXISTS.

Definition watchman_suffix_expression (suffix : option string) : built watchman_expression :=
  match suffix with
  | None => AssertFailed
  | Some s => Returned (suffix_expr s)
  end.

(** The macro [MATCH_EXPR]. *)
Definition MATCH_EXPR (kind : match_kind)
    (pattern : option string) (basename : watchman_basename)
    : built watchman_expression :=
  match pattern with
  | None => AssertFailed
  | Some m => Returned (match_expr kind m basename)
  end.

Definition watchman_match_expression := MATCH_EXPR MATCH_MATCH.
Definition watchman_imatch_expression := MATCH_EXPR MATCH_IMATCH.
Definition watchman_pcre_expression := MATCH_EXPR MATCH_PCRE.
Definition watchman_ipcre_expression := MATCH_EXPR MATCH_IPCRE.

(** The macro [NAMES_EXPR], in a build that defines [NDEBUG] ([ndebug]) or
    not.  Its parameter [basename] is not used by the body: the node is
    zeroed by [alloc_expr] and only [nr] and [names] are written.  The loop
    reads [names[0]] to [names[nr-1]].  For a negative [nr] the size given
    to [malloc] wraps and [malloc] gives [NULL], the loop runs no round and
    the node is returned with that count and no array.  [malloc(0)] is
    taken to hand out a block. *)
Definition NAMES_EXPR_build (ndebug : bool) (kind : name_kind)
    (nr : Z) (names : option (list string)) (basename : watchman_basename)
    : built watchman_expression :=
  if negb ndebug && (nr =? 0)%Z then AssertFailed else
  match names with
  | None =>
      if negb ndebug then AssertFailed
      else if (0 <? nr)%Z then OutOfBounds
      else if (nr =? 0)%Z then Returned (name_expr kind [])
      else ReturnedNullArray (name_expr kind [])
  | Some ns =>
      if (nr <? 0)%Z then ReturnedNullArray (name_expr kind [])
      else if (nr <=? Z.of_nat (length ns))%Z
      then Returned (name_expr kind (take (Z.to_nat nr) ns))
      else OutOfBounds
  end.

(** The build with assertions. *)
Definition NAMES_EXPR := NAMES_EXPR_build false.

Definition watchman_names_expression := NAMES_EXPR NAME_NAME.
Definition watchman_inames_expression := NAMES_EXPR NAME_INAME.

(** The macro [NAME_EXPR]: one name, passed on as an array of one. *)
Definition NAME_EXPR (kind : name_kind)
    (name : option string) (basename : watchman_basename)
    : built watchman_expression :=
  match name with
  | None => AssertFailed
  | Some n => NAMES_EXPR kind 1 (Some [n]) basename
  end.

Definition watchman_name_expression := NAME_EXPR NAME_NAME.
Definition watchman_iname_expression := NAME_EXPR NAME_INAME.

Definition watchman_type_expression (c : ascii) : built watchman_expression :=
  Returned (type_expr c).

(** ** The compiler [to_json] and the fields codec *)

Section Compiler.

(** [to_json] reads the scope of a name node through the union member
    [e.match_expr], which no constructor writes for such a node.  What
    the read finds is fixed by the layout of the union in the absent
    [watchman.h] and by the bytes of the node, which hold [nr] and
    [names] and never the scope; it is a parameter here. *)
Variable name_node_match_basename : name_kind -> list string -> Z.

Definition json_string_from_char (c : ascii) : option json :=
  json_string (Some (if Ascii.eqb c "000"%char then EmptyString else String c EmptyString)).

Definition json_string_or_array (items : list string) : option json :=
  match items with
  | [item] => json_string (Some item)
  | _ =>
      Some (JArray
        (foldl (fun result item => json_array_append_new result (json_string (Some item)))
               [] items))
  end.

Definition since_to_json (result : list json)
    (t : since_value) (clockspec : watchman_clockspec) : list json :=
  let result :=
    match t with
    | since_time_t time => json_array_append_new result (json_integer time)
    | since_string since => json_array_append_new result (json_string (Some since))
    end in
  match clockspec_value clockspec with
  | O => result
  | S _ =>
      let clockspec := table_at ty_str (clockspec_value clockspec) in
      json_array_append_new result (json_string clockspec)
  end.

Fixpoint to_json (expr : watchman_expression) : json :=
  let result :=
    json_array_append_new []
      (json_string (table_at ty_str (expression_type_value (expr_ty expr)))) in
  JArray
    match expr with
    | union_expr _ clauses =>
        foldl (fun result clause => json_array_append_new result (Some (to_json clause)))
              result clauses
    | not_expr clause => json_array_append_new result (Some (to_json clause))
    | static_expr _ => result
    | since_expr t clockspec => since_to_json result t clockspec
    | suffix_expr suffix => json_array_append_new result (json_string (Some suffix))
    | match_expr _ pattern basename =>
        let result := json_array_append_new result (json_string (Some pattern)) in
        if (basename_value basename =? 0)%Z then result
        else
          let base := table_at_int basename_str (basename_value basename) in
          json_array_append_new result (json_string base)
    | name_expr kind names =>
        let arg := json_string_or_array names in
        let result := json_array_append_new result arg in
        let basename := name_node_match_basename kind names in
        if (basename =? 0)%Z then result
        else
          let base := table_at_int basename_str basename in
          json_array_append_new result (json_string base)
    | type_expr type => json_array_append_new result (json_string_from_char type)
    end.

End Compiler.

Definition fields_str : list (option string) :=
  [ Some "name"; Some "exists"; Some "cclock"; Some "oclock"; Some "ctime";
    Some "ctime_ms"; Some "ctime_us"; Some "ctime_ns"; Some "ctime_f";
    Some "mtime"; Some "mtime_ms"; Some "mtime_us"; Some "mtime_ns";
    Some "mtime_f"; Some "size"; Some "uid"; Some "gid"; Some "ino";
    Some "dev"; Some "nlink"; Some "new" ].

(** Modelled from the spec: the flags of [enum watchman_fields]
    ([watchman.h] is absent), one bit per entry of the declaration order,
    [name] the lowest and [new] the highest. *)
Definition WATCHMAN_FIELD_NAME : Z := 1.
Definition WATCHMAN_FIELD_EXISTS : Z := 2.
Definition WATCHMAN_FIELD_SIZE : Z := 16384.
Definition WATCHMAN_FIELD_NEWER : Z := 1048576.

(** The loop of [fields_to_json]; [fuel] bounds the number of iterations. *)
Fixpoint fields_loop (fuel : nat) (fields mask : Z) (i : nat) (result : list json)
    : option (list json) :=
  if (mask <=? WATCHMAN_FIELD_NEWER)%Z then
    match fuel with
    | O => None
    | S fuel =>
        let result :=
          if (Z.land fields mask =? 0)%Z then result
          else json_array_append_new result (json_string (table_at fields_str i)) in
        fields_loop fuel fields (mask * 2) (S i) result
    end
  else Some result.

Definition fields_to_json_fuel (fuel : nat) (fields : Z) : option json :=
  match fields_loop fuel fields 1 0 [] with
  | Some result => Some (JArray result)
  | None => None
  end.

(** [fields_to_json]: the mask doubles from [1] and stops above
    [WATCHMAN_FIELD_NEWER]; thirty-two rounds are more than an [int] mask
    can take ([fields_loop_total] shows that twenty-one are used). *)
Definition fields_to_json (fields : Z) : option json :=
  fields_to_json_fuel 32 fields.

(** ** The connection, the error object and the heap *)

(** What a call of [watchman.c] can read and change: the two directions of
    [conn->fp], the caller's [error->message], and the number of blocks
    obtained from [malloc], [calloc] and [strdup] that are not freed yet.
    (Values of the JSON library are reference counted by that library and
    are not counted here.) *)
Record world : Type := World {
  fp_in : string;
  fp_out : string;
  error_message : option string;
  heap_live : Z
}.

Definition io (A : Type) : Type := world -> A * world.

Definition ret {A : Type} (a : A) : io A := fun w => (a, w).

Definition bind {A B : Type} (m : io A) (k : A -> io B) : io B :=
  fun w => let (a, w') := m w in k a w'.

Declare Scope io_scope.
Delimit Scope io_scope with io.
Notation "'do' x <- m ; k" := (bind m (fun x => k))
  (at level 10, x name, m at level 100, k at level 200) : io_scope.
Notation "'run' m ; k" := (bind m (fun _ => k))
  (at level 10, m at level 100, k at level 200) : io_scope.
Local Open Scope io_scope.

(** One block obtained ([malloc], [calloc], [strdup]) or given back. *)
Definition alloc : io unit :=
  fun w => (tt, World (fp_in w) (fp_out w) (error_message w) (heap_live w + 1)).

Definition free : io unit :=
  fun w => (tt, World (fp_in w) (fp_out w) (error_message w) (heap_live w - 1)).

Definition set_error_message (m : string) : io unit :=
  fun w => (tt, World (fp_in w) (fp_out w) (Some m) (heap_live w)).

Definition newline : ascii := "010"%char.

(** [c == '\n'] for what [fgetc] gave; the end of the stream is no newline. *)
Definition is_newline (c : option ascii) : bool :=
  match c with
  | Some c => Ascii.eqb c newline
  | None => false
  end.

Definition fputc (c : ascii) : io unit :=
  fun w => (tt, World (fp_in w) (fp_out w ++ String c EmptyString)
                      (error_message w) (heap_live w)).

(** [fgetc]: the next byte, or [None] at the end of the stream. *)
Definition fgetc : io (option ascii) :=
  fun w =>
    match fp_in w with
    | EmptyString => (None, w)
    | String c rest => (Some c, World rest (fp_out w) (error_message w) (heap_live w))
    end.

Section Protocol.

(** [json_loadf] with [JSON_DISABLE_EOF_CHECK] on the unread input: the
    value ([NULL] on failure), the text of [jerror], and the input left. *)
Variable json_loadf : string -> option json * string * string.

(** [json_dumpf] with [JSON_COMPACT] on the output written so far: the
    status ([0] on success) and the output after the call. *)
Variable json_dumpf : json -> string -> Z * string.

(** [json_dumps], [NULL] when it fails or is given [NULL]. *)
Variable json_dumps : option json -> option string.

(** What [%s] prints for a [NULL] argument. *)
Variable null_text : string.

(** Conversions of a [json_int_t] to the types that the absent
    [watchman.h] declares for the fields [mode] and [newer] of a stat.
    (The truth values [0] and [1] of [json_is_true] fit every integer type
    and are stored as they are.) *)
Variable mode_of_int : Z -> Z.
Variable newer_of_int : Z -> Z.

Definition show_arg (arg : option string) : string :=
  match arg with Some s => s | None => null_text end.

(** The formats of [watchman.c] use [%s] only. *)
Fixpoint vsnprintf (message : string) (args : list (option string)) : string :=
  match message with
  | EmptyString => EmptyString
  | String "%" (String "s" rest) =>
      match args with
      | arg :: args => show_arg arg ++ vsnprintf rest args
      | [] => vsnprintf rest []
      end
  | String c rest => String c (vsnprintf rest args)
  end.

Definition watchman_err (message : string) (args : list (option string)) : io unit :=
  run alloc;
  set_error_message (vsnprintf message args).

Definition load : io (option json * string) :=
  fun w =>
    let '(result, text, rest) := json_loadf (fp_in w) in
    ((result, text), World rest (fp_out w) (error_message w) (heap_live w)).

Definition dump (value : json) : io Z :=
  fun w =>
    let (status, out) := json_dumpf value (fp_out w) in
    (status, World (fp_in w) out (error_message w) (heap_live w)).

Definition watchman_send_simple_cmd (args : list string) : io Z :=
  let cmd_array :=
    foldl (fun items arg => json_array_append_new items (json_string (Some arg))) [] args in
  do json_result <- dump (JArray cmd_array);
  do result <-
    (if (json_result =? 0)%Z then ret 0%Z
     else run watchman_err "Failed to send simple watchman command" []; ret 1%Z);
  run fputc newline;
  ret result.

Definition watchman_read : io (option json) :=
  do loaded <- load;
  let (result, text) := loaded in
  run (match result with
       | None => watchman_err "Got unparseable or empty result from watchman: %s" [Some text]
       | Some _ => ret tt
       end);
  do c <- fgetc;
  if negb (is_newline c) then
    run watchman_err "No newline at end of reply" [];
    ret None
  else ret result.

Definition watchman_read_and_handle_errors : io Z :=
  do obj <- watchman_read;
  match obj with
  | None => ret 1%Z
  | Some _ =>
      if negb (json_is_object obj) then
        run watchman_err "Got non-object result from watchman : %s" [json_dumps obj];
        ret 1%Z
      else
        let error_json := json_object_get obj "error" in
        match error_json with
        | Some _ =>
            run watchman_err "Got error result from watchman : %s"
                  [json_string_value error_json];
            ret 1%Z
        | None => ret 0%Z
        end
  end.

Definition watchman_watch (path : string) : io Z :=
  do sent <- watchman_send_simple_cmd ["watch"; path];
  if negb (sent =? 0)%Z then ret 1%Z else
  do bad <- watchman_read_and_handle_errors;
  if negb (bad =? 0)%Z then ret 1%Z else ret 0%Z.

Definition watchman_watch_del (path : string) : io Z :=
  do sent <- watchman_send_simple_cmd ["watch-del"; path];
  if negb (sent =? 0)%Z then ret 1%Z else
  do bad <- watchman_read_and_handle_errors;
  if negb (bad =? 0)%Z then ret 1%Z else ret 0%Z.

(** The macro [JSON_ASSERT]: when [cond] fails on [condarg], report it
    with a dump of the value and jump to [done]. *)
Definition JSON_ASSERT {A : Type} (cond : option json -> bool) (condarg : option json)
    (msg : string) (done next : io A) : io A :=
  if cond condarg then next
  else run watchman_err msg [json_dumps condarg]; done.

(** *** The watch list *)

(** Modelled from the spec: [watchman_watch_list_t] ([watchman.h] is
    absent), the count [nr] and the array [roots] that the code fills;
    an entry that was never written is the [NULL] that [calloc] left. *)
Record watchman_watch_list_t : Type := WatchList {
  wl_nr : nat;
  wl_roots : list (option string)
}.

(** The loop over [roots] from index [i], [n] rounds left.  Leaving the
    loop and jumping to [done] end at the same place. *)
Fixpoint watch_list_loop (n i : nat) (roots : option json)
    (res : watchman_watch_list_t) : io watchman_watch_list_t :=
  match n with
  | O => ret res
  | S n =>
      let root := json_array_get roots i in
      JSON_ASSERT json_is_string root "Got non-string root from watch-list %s"
        (ret res)
        (run alloc;
         watch_list_loop n (S i) roots
           (WatchList (wl_nr res) (<[i := json_string_value root]> (wl_roots res))))
  end.

(** [watchman_watch_list] from the point where the reply has been read. *)
Definition watch_list_of_reply (obj : option json) : io (option watchman_watch_list_t) :=
  JSON_ASSERT json_is_object obj "Got bogus value from watch-list %s"
    (ret None)
    (let roots := json_object_get obj "roots" in
     JSON_ASSERT json_is_array roots "Got bogus value from watch-list %s"
       (ret None)
       (run alloc;
        let nr := json_array_size roots in
        run alloc;
        do res <- watch_list_loop nr 0 roots (WatchList nr (replicate nr None));
        ret (Some res))).

Definition watchman_watch_list : io (option watchman_watch_list_t) :=
  do sent <- watchman_send_simple_cmd ["watch-list"];
  if negb (sent =? 0)%Z then ret None else
  do obj <- watchman_read;
  match obj with
  | None => ret None
  | Some _ => watch_list_of_reply obj
  end.

(** *** The query result *)

(** Modelled from the spec: [watchman_stat_t] ([watchman.h] is absent),
    with the fields the spec lists: name, exists, mode, newer, size. *)
Record watchman_stat_t : Type := Stat {
  stat_name : option string;
  stat_exists : Z;
  stat_mode : Z;
  stat_newer : Z;
  stat_size : Z
}.

(** Modelled from the spec: [watchman_query_result_t] ([watchman.h] is
    absent), with the fields [watchman_do_query] writes. *)
Record watchman_query_result_t : Type := QueryResult {
  qr_nr : nat;
  qr_stats : option (list watchman_stat_t);
  qr_version : option string;
  qr_clock : option string;
  qr_is_fresh_instance : Z
}.

(** A stat as [calloc] leaves it. *)
Definition zero_stat : watchman_stat_t := Stat None 0 0 0 0.

Definition set_name (v : option string) (s : watchman_stat_t) : watchman_stat_t :=
  Stat v (stat_exists s) (stat_mode s) (stat_newer s) (stat_size s).
Definition set_exists (v : Z) (s : watchman_stat_t) : watchman_stat_t :=
  Stat (stat_name s) v (stat_mode s) (stat_newer s) (stat_size s).
Definition set_mode (v : Z) (s : watchman_stat_t) : watchman_stat_t :=
  Stat (stat_name s) (stat_exists s) v (stat_newer s) (stat_size s).
Definition set_newer (v : Z) (s : watchman_stat_t) : watchman_stat_t :=
  Stat (stat_name s) (stat_exists s) (stat_mode s) v (stat_size s).

(** The part of the loop body of [watchman_do_query] that reads the
    optional keys of an object entry into [stat]. *)
Definition read_stat_fields (statobj : option json) (stat : watchman_stat_t)
    : watchman_stat_t :=
  let exists_ := json_object_get statobj "exists" in
  let stat := match exists_ with
              | Some _ => set_exists (json_is_true exists_) stat
              | None => stat end in
  let mode := json_object_get statobj "mode" in
  let stat := match mode with
              | Some _ => set_mode (mode_of_int (json_integer_value mode)) stat
              | None => stat end in
  let newer := json_object_get statobj "new" in
  let stat := match newer with
              | Some _ => set_newer (json_is_true newer) stat
              | None => stat end in
  let size := json_object_get statobj "size" in
  match size with
  | Some _ => set_newer (newer_of_int (json_integer_value size)) stat
  | None => stat
  end.

(** The loop over [files] from index [i], [n] rounds left: the array of
    stats after it and whether it ran to its end ([false]: a
    [JSON_ASSERT] jumped to [done]). *)
Fixpoint files_loop (n i : nat) (files : option json) (stats : list watchman_stat_t)
    : io (bool * list watchman_stat_t) :=
  match n with
  | O => ret (true, stats)
  | S n =>
      let stat := default zero_stat (stats !! i) in
      let statobj := json_array_get files i in
      if json_is_string statobj then
        run alloc;
        files_loop n (S i) files
          (<[i := set_name (json_string_value statobj) stat]> stats)
      else
        JSON_ASSERT json_is_object statobj "must be object: %s"
          (ret (false, stats))
          (let name := json_object_get statobj "name" in
           JSON_ASSERT json_is_string name "name must be string: %s"
             (ret (false, stats))
             (run alloc;
              let stat := set_name (json_string_value name) stat in
              files_loop n (S i) files (<[i := read_stat_fields statobj stat]> stats)))
  end.

Definition watchman_dealloc_stat (stat : watchman_stat_t) : io unit :=
  match stat_name stat with
  | Some _ => free
  | None => ret tt
  end.

Fixpoint dealloc_stats_loop (n i : nat) (stats : list watchman_stat_t) : io unit :=
  match n with
  | O => ret tt
  | S n =>
      run watchman_dealloc_stat (default zero_stat (stats !! i));
      dealloc_stats_loop n (S i) stats
  end.

Definition watchman_free_query_result (result : watchman_query_result_t) : io unit :=
  run (match qr_version result with Some _ => free | None => ret tt end);
  run (match qr_clock result with Some _ => free | None => ret tt end);
  run (match qr_stats result with
       | Some stats => run dealloc_stats_loop (qr_nr result) 0 stats; free
       | None => ret tt
       end);
  free.

(** The label [done] of [watchman_do_query]: give back what was built and
    return no result. *)
Definition query_done (res : option watchman_query_result_t)
    : io (option watchman_query_result_t) :=
  run (match res with
       | Some res => watchman_free_query_result res
       | None => ret tt
       end);
  ret None.

(** [watchman_do_query] from the point where the reply has been read.
    [calloc] is taken to hand out a block also for an array of no
    entries, and no allocation to fail (the code checks none). *)
Definition query_result_of_reply (obj : option json)
    : io (option watchman_query_result_t) :=
  JSON_ASSERT json_is_object obj "Failed to send watchman query %s"
    (query_done None)
    (run alloc;
     let res := QueryResult 0 None None None 0 in
     let files := json_object_get obj "files" in
     JSON_ASSERT json_is_array files "Bad files %s"
       (query_done (Some res))
       (let nr := json_array_size files in
        run alloc;
        do looped <- files_loop nr 0 files (replicate nr zero_stat);
        let (finished, stats) := looped in
        let res := QueryResult nr (Some stats) None None 0 in
        if negb finished then query_done (Some res) else
        let version := json_object_get obj "version" in
        JSON_ASSERT json_is_string version "Bad version %s"
          (query_done (Some res))
          (run alloc;
           let res := QueryResult nr (Some stats) (json_string_value version) None 0 in
           let clock := json_object_get obj "clock" in
           JSON_ASSERT json_is_string clock "Bad clock %s"
             (query_done (Some res))
             (run alloc;
              let res := QueryResult nr (Some stats) (json_string_value version)
                           (json_string_value clock) 0 in
              let fresh := json_object_get obj "is_fresh_instance" in
              JSON_ASSERT json_is_boolean fresh "Bad is_fresh_instance %s"
                (query_done (Some res))
                (ret (Some (QueryResult nr (Some stats) (json_string_value version)
                              (json_string_value clock) (json_is_true fresh)))))))).

Definition watchman_do_query (query : json) : io (option watchman_query_result_t) :=
  do json_result <- dump query;
  if negb (json_result =? 0)%Z then
    run watchman_err "Failed to send watchman query %s" [json_dumps (Some query)];
    ret None
  else
  run fputc newline;
  do obj <- watchman_read;
  match obj with
  | None => ret None
  | Some _ => query_result_of_reply obj
  end.

End Protocol.

(** [watchman_query]: the command ["query", fs_path, {"expression": ...,
    "fields": ...}] handed to [watchman_do_query].  [json_object_set_new]
    leaves out a key whose value is [NULL]. *)
Definition watchman_query
    (name_node_match_basename : name_kind -> list string -> Z)
    (json_loadf : string -> option json * string * string)
    (json_dumpf : json -> string -> Z * string)
    (json_dumps : option json -> option string)
    (null_text : string) (mode_of_int newer_of_int : Z -> Z)
    (fs_path : string) (expr : watchman_expression) (fields : Z)
    : io (option watchman_query_result_t) :=
  let query := json_array_append_new [] (json_string (Some "query")) in
  let query := json_array_append_new query (json_string (Some fs_path)) in
  let obj := [("expression", to_json name_node_match_basename expr)] in
  let obj := match fields_to_json fields with
             | Some f => (obj ++ [("fields", f)])%list
             | None => obj
             end in
  let query := json_array_append_new query (Some (JObject obj)) in
  watchman_do_query json_loadf json_dumpf json_dumps null_text mode_of_int newer_of_int
    (JArray query).

(** ** Releasing results and expressions *)

(** The loop of [watchman_free_watch_list]; [free(NULL)] does nothing. *)
Fixpoint free_roots_loop (n i : nat) (roots : list (option string)) : io unit :=
  match n with
  | O => ret tt
  | S n =>
      run (match default None (roots !! i) with
           | Some _ => free
           | None => ret tt
           end);
      free_roots_loop n (S i) roots
  end.

Definition watchman_free_watch_list (list : watchman_watch_list_t) : io unit :=
  run free_roots_loop (wl_nr list) 0 (wl_roots list);
  run free;
  free.


(** ** Daemon discovery *)

(** Modelled from the spec: [watchman_connection_t] ([watchman.h] is
    absent), the handle of the stream [fp] that the socket layer opened. *)
Inductive watchman_connection_t : Type :=
| Connection (fp : Z).

(** [%d] of an [int]. *)
Definition show_int (n : Z) : string :=
  DecimalString.NilZero.string_of_int (Z.to_int n).

(** A format whose one directive is [%d]. *)
Fixpoint vsnprintf_d (message : string) (n : Z) : string :=
  match message with
  | EmptyString => EmptyString
  | String "%" (String "d" rest) => show_int n +:+ rest
  | String c rest => String c (vsnprintf_d rest n)
  end.

(** [watchman_err] with such a format. *)
Definition watchman_err_d (message : string) (n : Z) : io unit :=
  run alloc;
  set_error_message (vsnprintf_d message n).

Section Discovery.

(** [popen("watchman get-sockname", "r")]: [errno] when it fails, else
    what the command prints. *)
Variable popen_get_sockname : Z + string.

(** [json_loadf] without flags on that output: the value ([NULL] on
    failure) and the text of [jerror]. *)
Variable json_loadf_whole : string -> option json * string.

Variable null_text : string.

(** [watchman_sock_connect], the socket layer. *)
Variable watchman_sock_connect : option string -> io (option watchman_connection_t).

Definition watchman_connect : io (option watchman_connection_t) :=
  match popen_get_sockname with
  | inl errno =>
      run watchman_err_d "Could not watchman get-sockname: %d" errno;
      ret None
  | inr output =>
      let (json, text) := json_loadf_whole output in
      match json with
      | None =>
          run watchman_err null_text "Got bad JSON from watchman get-sockname: %s"
                [Some text];
          ret None
      | Some _ =>
          if negb (json_is_object json) then
            run watchman_err null_text
                  "Got bad JSON from watchman get-sockname: object expected" [];
            ret None
          else
            let sockname_obj := json_object_get json "sockname" in
            match sockname_obj with
            | None =>
                run watchman_err null_text
                      "Got bad JSON from watchman get-sockname: socket expected" [];
                ret None
            | Some _ =>
                if negb (json_is_string sockname_obj) then
                  run watchman_err null_text
                        "Got bad JSON from watchman get-sockname: socket is not string" [];
                  ret None
                else
                  let sockname := json_string_value sockname_obj in
                  watchman_sock_connect sockname
            end
      end
  end.

End Discovery.

(** ** Definitions used to state the properties *)

(** The declaration order of the result fields, as the specification lists
    it. *)
Definition declaration_order : list string :=
  [ "name"; "exists"; "cclock"; "oclock"; "ctime"; "ctime_ms"; "ctime_us";
    "ctime_ns"; "ctime_f"; "mtime"; "mtime_ms"; "mtime_us"; "mtime_ns";
    "mtime_f"; "size"; "uid"; "gid"; "ino"; "dev"; "nlink"; "new" ].

(** The names of [names], numbered from [i], whose bit is set in [fields],
    in the order of [names]. *)
Fixpoint select_from (i : nat) (names : list string) (fields : Z) : list json :=
  match names with
  | [] => []
  | n :: rest =>
      if Z.testbit fields (Z.of_nat i)
      then JString n :: select_from (S i) rest fields
      else select_from (S i) rest fields
  end.

(** [true] when [m] can be the output of the format [fmt], whose only
    directive, if any, is a [%s] at its end. *)
Fixpoint matches_format (fmt m : string) : bool :=
  match fmt with
  | EmptyString => match m with EmptyString => true | _ => false end
  | String "%" (String "s" _) => true
  | String c fmt =>
      match m with
      | String d m => Ascii.eqb c d && matches_format fmt m
      | EmptyString => false
      end
  end.

(** The error kinds of the specification, read off the message: the code
    has one error type, a message, and tells the kinds apart by text. *)
Definition protocol_formats : list string :=
  [ "Got unparseable or empty result from watchman: %s";
    "No newline at end of reply";
    "Failed to send simple watchman command" ].

Definition semantic_formats : list string :=
  [ "Got error result from watchman : %s" ].

Definition schema_formats : list string :=
  [ "Got non-object result from watchman : %s";
    "Got bogus value from watch-list %s";
    "Got non-string root from watch-list %s";
    "Bad files %s";
    "must be object: %s";
    "name must be string: %s";
    "Bad version %s";
    "Bad clock %s";
    "Bad is_fresh_instance %s" ].

Definition is_protocol_error (m : string) : bool :=
  existsb (fun fmt => matches_format fmt m) protocol_formats.

Definition is_semantic_error (m : string) : bool :=
  existsb (fun fmt => matches_format fmt m) semantic_formats.

Definition is_schema_error (m : string) : bool :=
  existsb (fun fmt => matches_format fmt m) schema_formats.

(** The number of stats of an array that own a name. *)
Definition owns_name (s : watchman_stat_t) : Z :=
  match stat_name s with Some _ => 1 | None => 0 end.

Fixpoint count_names (stats : list watchman_stat_t) : Z :=
  match stats with
  | [] => 0
  | s :: rest => owns_name s + count_names rest
  end.

(** The value a since node contributes to its compiled form. *)
Definition since_json (t : since_value) : json :=
  match t with
  | since_string since => JString since
  | since_time_t time => JInteger time
  end.

(** What [to_json] appends to a name node after the names, given what it
    reads as the node's scope. *)
Definition name_scope_items (layout : name_kind -> list string -> Z)
    (kind : name_kind) (names : list string) : list json :=
  if (layout kind names =? 0)%Z then []
  else match table_at_int basename_str (layout kind names) with
       | Some base => [JString base]
       | None => []
       end.

(** The blocks that [watchman_free_query_result] is to give back for a
    result: the struct, its two strings, the array of stats and the names
    of the first [nr] stats. *)
Definition owned_blocks (r : watchman_query_result_t) : Z :=
  (match qr_version r with Some _ => 1 | None => 0 end)
  + (match qr_clock r with Some _ => 1 | None => 0 end)
  + (match qr_stats r with
     | Some stats => count_names (take (qr_nr r) stats) + 1
     | None => 0
     end)
  + 1.

(** Replies and library stand-ins on which the properties are evaluated:
    a parser that finds one fixed value followed by a newline, a writer
    that succeeds and appends nothing, a serialiser that gives up. *)
Definition loadf_reply (reply : json) : string -> option json * string * string :=
  fun _ => (Some reply, EmptyString, String newline EmptyString).

Definition dumpf_ok : json -> string -> Z * string :=
  fun _ out => (0%Z, out).

Definition dumps_null : option json -> option string :=
  fun _ => None.

Definition world0 : world := World EmptyString EmptyString None 0.

Definition reply_error : json :=
  JObject [("error", JString "root not watched")].

Definition reply_roots_bad : json :=
  JObject [("roots", JArray [JString "/a"; JInteger 1])].

Definition files_example : json :=
  JArray [ JString "a.txt";
           JObject [("name", JString "b.txt"); ("exists", JTrue); ("size", JInteger 42)] ].

Definition reply_query : json :=
  JObject [ ("version", JString "3.0"); ("clock", JString "c:1:2");
            ("is_fresh_instance", JFalse); ("files", files_example) ].

Definition reply_no_clock : json :=
  JObject [ ("version", JString "3.0"); ("is_fresh_instance", JFalse);
            ("files", files_example) ].

(** The name of a match kind and of a marker kind on the wire, and the
    items a scope adds to a compiled match. *)
Definition match_tag (kind : match_kind) : string :=
  match kind with
  | MATCH_MATCH => "match"
  | MATCH_IMATCH => "imatch"
  | MATCH_PCRE => "pcre"
  | MATCH_IPCRE => "ipcre"
  end.

Definition static_tag (kind : static_kind) : string :=
  match kind with
  | STATIC_EMPTY => "empty"
  | STATIC_TRUE => "true"
  | STATIC_FALSE => "false"
  | STATIC_EXISTS => "exists"
  end.

Definition scope_items (basename : watchman_basename) : list json :=
  match basename with
  | WATCHMAN_BASENAME_DEFAULT => []
  | WATCHMAN_BASENAME_BASENAME => [JString "basename"]
  | WATCHMAN_BASENAME_WHOLENAME => [JString "wholename"]
  end.

(** [true] when no Name or IName node occurs in the tree. *)
Fixpoint name_free (expr : watchman_expression) : bool :=
  match expr with
  | union_expr _ clauses => forallb name_free clauses
  | not_expr clause => name_free clause
  | name_expr _ _ => false
  | _ => true
  end.

(** The blocks of a tree as the constructors obtain them: one for a node
    ([alloc_expr] or [malloc]), one for each string ([strdup]), one for the
    array of clauses or of names; none for the static marker nodes. *)
Fixpoint expression_blocks (expr : watchman_expression) : Z :=
  match expr with
  | union_expr _ clauses =>
      foldr (fun clause rest => expression_blocks clause + rest) 0 clauses + 2
  | not_expr clause => expression_blocks clause + 1
  | static_expr _ => 0
  | since_expr (since_string _) _ => 2
  | since_expr (since_time_t _) _ => 1
  | suffix_expr _ => 2
  | match_expr _ _ _ => 2
  | name_expr _ names => Z.of_nat (length names) + 2
  | type_expr _ => 1
  end.

(** The bits of a mask that name a field. *)
Definition field_bits : Z := 2 ^ 21 - 1.

(** The number of roots of a list that were filled. *)
Fixpoint count_roots (roots : list (option string)) : Z :=
  match roots with
  | [] => 0
  | Some _ :: rest => 1 + count_roots rest
  | None :: rest => count_roots rest
  end.

(** A writer that fails and writes nothing. *)
Definition dumpf_fail : json -> string -> Z * string :=
  fun _ out => ((-1)%Z, out).

(** A parser that finds nothing and leaves the input as it is. *)
Definition loadf_nothing : string -> option json * string * string :=
  fun input => (None, "end of input", input).

Definition reply_roots : json :=
  JObject [("roots", JArray [JString "/a"; JString "/b"])].

Definition reply_ok : json :=
  JObject [("version", JString "3.0"); ("watch", JString "/tmp")].

(** The C strings that jansson's [json_string] accepts: no NUL byte (a C
    string ends there) and well-formed UTF-8, that is no stray continuation
    byte, no overlong form, no surrogate and nothing above U+10FFFF. *)
Definition byte_in (lo hi : N) (c : ascii) : bool :=
  (lo <=? N_of_ascii c)%N && (N_of_ascii c <=? hi)%N.

Fixpoint utf8_text (s : string) : bool :=
  match s with
  | EmptyString => true
  | String c0 rest =>
      if byte_in 1 127 c0 then utf8_text rest
      else if byte_in 194 223 c0 then
        match rest with
        | String c1 rest => byte_in 128 191 c1 && utf8_text rest
        | _ => false
        end
      else if byte_in 224 239 c0 then
        match rest with
        | String c1 (String c2 rest) =>
            (if byte_in 224 224 c0 then byte_in 160 191 c1
             else if byte_in 237 237 c0 then byte_in 128 159 c1
             else byte_in 128 191 c1)
            && byte_in 128 191 c2 && utf8_text rest
        | _ => false
        end
      else if byte_in 240 244 c0 then
        match rest with
        | String c1 (String c2 (String c3 rest)) =>
            (if byte_in 240 240 c0 then byte_in 144 191 c1
             else if byte_in 244 244 c0 then byte_in 128 143 c1
             else byte_in 128 191 c1)
            && byte_in 128 191 c2 && byte_in 128 191 c3 && utf8_text rest
        | _ => false
        end
      else false
  end.

(** [json_string] with jansson's check of its argument: [NULL] for a
    string that is not well-formed UTF-8. *)
Definition json_string_checked (value : option string) : option json :=
  match value with
  | Some s => if utf8_text s then Some (JString s) else None
  | None => None
  end.

(** [true] when what [to_json] reads as the scope of each name node of the
    tree is an index of [basename_str]. *)
Fixpoint scope_reads_in_range (layout : name_kind -> list string -> Z)
    (expr : watchman_expression) : bool :=
  match expr with
  | union_expr _ clauses => forallb (scope_reads_in_range layout) clauses
  | not_expr clause => scope_reads_in_range layout clause
  | name_expr kind names => (0 <=? layout kind names)%Z && (layout kind names <=? 2)%Z
  | _ => true
  end.

(** [true] when every string of the tree is one [json_string] accepts; the
    character of a type node may also be NUL, which gives the empty
    string. *)
Fixpoint strings_are_text (expr : watchman_expression) : bool :=
  match expr with
  | union_expr _ clauses => forallb strings_are_text clauses
  | not_expr clause => strings_are_text clause
  | static_expr _ => true
  | since_expr (since_string since) _ => utf8_text since
  | since_expr (since_time_t _) _ => true
  | suffix_expr suffix => utf8_text suffix
  | match_expr _ pattern _ => utf8_text pattern
  | name_expr _ names => forallb utf8_text names
  | type_expr type => Ascii.eqb type "000"%char || utf8_text (String type EmptyString)
  end.

(** * Properties *)

(** ** The expression compiler *)

Lemma foldl_append_some {A : Type} (f : A -> json) (l : list A) (acc : list json) :
  foldl (fun result x => json_array_append_new result (Some (f x))) acc l
  = (acc ++ map f l)%list.
Proof.
  revert acc; induction l as [|x l IH]; intros acc; simpl.
  - by rewrite app_nil_r.
  - rewrite IH. unfold json_array_append_new. by rewrite <- app_assoc.
Qed.

Lemma json_string_or_array_one (item : string) :
  json_string_or_array [item] = Some (JString item).
Proof. reflexivity. Qed.

Lemma json_string_or_array_many (a b : string) (rest : list string) :
  json_string_or_array (a :: b :: rest) = Some (JArray (map JString (a :: b :: rest))).
Proof.
  unfold json_string_or_array.
  change (fun (result : list json) (item : string) =>
            json_array_append_new result (json_string (Some item)))
    with (fun (result : list json) (item : string) =>
            json_array_append_new result (Some (JString item))).
  by rewrite foldl_append_some.
Qed.

Section CompilerFacts.

Variable layout : name_kind -> list string -> Z.

Lemma to_json_union (kind : union_kind) (clauses : list watchman_expression) :
  to_json layout (union_expr kind clauses)
  = JArray (JString (match kind with UNION_ALLOF => "allof" | UNION_ANYOF => "anyof" end)
            :: map (to_json layout) clauses).
Proof.
  destruct kind; cbn [to_json]; rewrite foldl_append_some; reflexivity.
Qed.

Lemma to_json_not (clause : watchman_expression) :
  to_json layout (not_expr clause) = JArray [JString "not"; to_json layout clause].
Proof. reflexivity. Qed.

Lemma to_json_suffix (suffix : string) :
  to_json layout (suffix_expr suffix) = JArray [JString "suffix"; JString suffix].
Proof. reflexivity. Qed.

Lemma to_json_name (kind : name_kind) (names : list string) :
  to_json layout (name_expr kind names)
  = JArray ([JString (match kind with NAME_NAME => "name" | NAME_INAME => "iname" end)]
            ++ match json_string_or_array names with Some arg => [arg] | None => [] end
            ++ name_scope_items layout kind names)%list.
Proof.
  unfold name_scope_items.
  destruct kind; cbn [to_json];
    destruct (json_string_or_array names) eqn:Harg;
    destruct (layout _ names =? 0)%Z; cbn; try reflexivity;
    destruct (table_at_int basename_str (layout _ names)); cbn;
    rewrite <- ?app_assoc; reflexivity.
Qed.

Lemma to_json_since (t : since_value) (clockspec : watchman_clockspec) :
  to_json layout (since_expr t clockspec)
  = JArray ([JString "since"; since_json t]
            ++ match clockspec_value clockspec with
               | O => []
               | S _ => match table_at ty_str (clockspec_value clockspec) with
                        | Some s => [JString s]
                        | None => []
                        end
               end)%list.
Proof. destruct t, clockspec; reflexivity. Qed.

(** C2.  A since node without clockspec compiles to ["since", value];
    with a clockspec it compiles to three elements, but the third is read
    from the table of expression names [ty_str], not from
    [clockspec_str]: observed-clock gives "anyof", mtime gives "not" and
    ctime gives "true" where "oclock", "mtime" and "ctime" are due. *)
Theorem since_to_json_reads_ty_str (t : since_value) :
  to_json layout (since_expr t WATCHMAN_CLOCKSPEC_DEFAULT)
    = JArray [JString "since"; since_json t]
  /\ to_json layout (since_expr t WATCHMAN_CLOCKSPEC_OCLOCK)
    = JArray [JString "since"; since_json t; JString "anyof"]
  /\ to_json layout (since_expr t WATCHMAN_CLOCKSPEC_MTIME)
    = JArray [JString "since"; since_json t; JString "not"]
  /\ to_json layout (since_expr t WATCHMAN_CLOCKSPEC_CTIME)
    = JArray [JString "since"; since_json t; JString "true"]
  /\ to_json layout (since_expr (since_string "c:1:2") WATCHMAN_CLOCKSPEC_OCLOCK)
    <> JArray [JString "since"; JString "c:1:2"; JString "oclock"].
Proof.
  repeat split; try (destruct t; reflexivity).
  rewrite to_json_since. cbn. intros H. discriminate H.
Qed.

(** C3.  [watchman_not_expression] builds no node and returns no value,
    whatever its argument; a Not node, once it exists, compiles to
    ["not", compile(e)]. *)
Theorem not_expression_returns_no_node (e : watchman_expression) :
  watchman_not_expression e = NoValue
  /\ watchman_not_expression e <> Returned (not_expr e)
  /\ to_json layout (not_expr e) = JArray [JString "not"; to_json layout e].
Proof.
  split; [reflexivity|]. split; [discriminate|]. apply to_json_not.
Qed.

(** C8.  One name compiles to a bare string and two or more to an array,
    but the scope given to the constructor is never stored in the node:
    whatever the layout, the node built for (["a","b"], wholename) is the
    node built for (["a","b"], none) and both compile to the same array,
    so the compiled form cannot end in "wholename" for the first and
    after the names for the second. *)
Theorem names_expression_drops_scope :
  (forall kind nr names basename,
      NAMES_EXPR kind nr names basename
      = NAMES_EXPR kind nr names WATCHMAN_BASENAME_DEFAULT)
  /\ watchman_names_expression 2 (Some ["a"; "b"]) WATCHMAN_BASENAME_WHOLENAME
     = Returned (name_expr NAME_NAME ["a"; "b"])
  /\ watchman_name_expression (Some "a") WATCHMAN_BASENAME_DEFAULT
     = Returned (name_expr NAME_NAME ["a"])
  /\ to_json layout (name_expr NAME_NAME ["a"])
     = JArray ([JString "name"; JString "a"]
               ++ name_scope_items layout NAME_NAME ["a"])%list
  /\ to_json layout (name_expr NAME_NAME ["a"; "b"])
     = JArray ([JString "name"; JArray [JString "a"; JString "b"]]
               ++ name_scope_items layout NAME_NAME ["a"; "b"])%list
  /\ ~ (to_json layout (name_expr NAME_NAME ["a"; "b"])
          = JArray [JString "name"; JArray [JString "a"; JString "b"]; JString "wholename"]
        /\ to_json layout (name_expr NAME_NAME ["a"; "b"])
          = JArray [JString "name"; JArray [JString "a"; JString "b"]]).
Proof.
  split; [reflexivity|]. split; [reflexivity|]. split; [reflexivity|].
  split; [apply to_json_name|]. split; [apply to_json_name|].
  intros [H1 H2]. rewrite H1 in H2. discriminate H2.
Qed.

End CompilerFacts.

(** C10.  In a build with assertions (one that does not define NDEBUG),
    the constructors of AllOf, AnyOf, Name-list and IName-list expressions
    stop at their [assert(nr)] when the count is zero, whatever the array
    and the scope: the empty list is refused by the constructor, no node is
    returned, and nothing is left for [to_json] to meet. *)
Theorem empty_list_rejected_by_constructor (ndebug : bool) :
  ndebug = false ->
  (forall expression_words kind expressions,
      UNION_EXPR_build ndebug expression_words kind 0 expressions = AssertFailed)
  /\ (forall kind names basename,
      NAMES_EXPR_build ndebug kind 0 names basename = AssertFailed)
  /\ (forall expression_words expressions,
      watchman_allof_expression expression_words 0 expressions = AssertFailed
      /\ watchman_anyof_expression expression_words 0 expressions = AssertFailed)
  /\ (forall names basename,
      watchman_names_expression 0 names basename = AssertFailed
      /\ watchman_inames_expression 0 names basename = AssertFailed).
Proof.
  intros ->. repeat split.
Qed.

Lemma empty_list_rejected_by_constructor_witness :
  UNION_EXPR_build false 4 UNION_ALLOF 0 (Some []) = AssertFailed
  /\ NAMES_EXPR_build false NAME_NAME 0 (Some []) WATCHMAN_BASENAME_DEFAULT = AssertFailed.
Proof.
  destruct (empty_list_rejected_by_constructor false eq_refl) as (Hunion & Hnames & _).
  split.
  - apply (Hunion 4%positive UNION_ALLOF (Some [])).
  - apply (Hnames NAME_NAME (Some []) WATCHMAN_BASENAME_DEFAULT).
Defined.

(** ** The fields codec *)

Lemma land_pow2_eqb (a : Z) (n : Z) :
  (0 <= n)%Z -> (Z.land a (2 ^ n) =? 0)%Z = negb (Z.testbit a n).
Proof.
  intros Hn.
  assert (Hland : Z.land a (2 ^ n) = if Z.testbit a n then (2 ^ n)%Z else 0%Z).
  { apply Z.bits_inj'. intros m Hm.
    rewrite Z.land_spec, Z.pow2_bits_eqb by lia.
    destruct (Z.eqb_spec n m) as [->|Hne].
    - destruct (Z.testbit a m); [|by rewrite Z.bits_0].
      rewrite Z.pow2_bits_eqb by lia. by rewrite Z.eqb_refl.
    - rewrite andb_false_r.
      destruct (Z.testbit a n); [|by rewrite Z.bits_0].
      rewrite Z.pow2_bits_eqb by lia. symmetry. by apply Z.eqb_neq. }
  rewrite Hland. destruct (Z.testbit a n); cbn.
  - apply Z.eqb_neq. pose proof (Z.pow_pos_nonneg 2 n). lia.
  - reflexivity.
Qed.

Lemma fields_loop_eq (fuel : nat) (fields mask : Z) (i : nat) (result : list json) :
  fields_loop fuel fields mask i result
  = if (mask <=? WATCHMAN_FIELD_NEWER)%Z then
      match fuel with
      | O => None
      | S fuel =>
          fields_loop fuel fields (mask * 2) (S i)
            (if (Z.land fields mask =? 0)%Z then result
             else json_array_append_new result (json_string (table_at fields_str i)))
      end
    else Some result.
Proof. destruct fuel; reflexivity. Qed.

Lemma fields_str_declaration_order : fields_str = map Some declaration_order.
Proof. reflexivity. Qed.

(** From round [i] on, with at least the [d] rounds that remain as fuel,
    the loop appends the selected names of the rest of the table. *)
Lemma fields_loop_from (d : nat) :
  forall (i fuel : nat) (fields : Z) (result : list json),
    (i + d = 21)%nat -> (d <= fuel)%nat ->
    fields_loop fuel fields (2 ^ Z.of_nat i) i result
    = Some (result ++ select_from i (drop i declaration_order) fields)%list.
Proof.
  induction d as [|d IH]; intros i fuel fields result Hi Hfuel.
  - rewrite fields_loop_eq.
    assert (Hi' : i = 21%nat) by lia. subst i. cbn.
    by rewrite app_nil_r.
  - rewrite fields_loop_eq.
    assert (Hle : (2 ^ Z.of_nat i <=? WATCHMAN_FIELD_NEWER)%Z = true).
    { apply Z.leb_le. change WATCHMAN_FIELD_NEWER with (2 ^ 20)%Z.
      apply Z.pow_le_mono_r; lia. }
    rewrite Hle.
    destruct fuel as [|fuel]; [lia|].
    assert (Hlt : (i < length declaration_order)%nat) by (cbn; lia).
    destruct (lookup_lt_is_Some_2 declaration_order i Hlt) as [name Hname].
    rewrite (drop_S _ _ _ Hname). cbn [select_from].
    assert (Htab : table_at fields_str i = Some name).
    { unfold table_at. rewrite fields_str_declaration_order, list_lookup_fmap, Hname.
      reflexivity. }
    rewrite Htab, land_pow2_eqb by lia.
    replace (2 ^ Z.of_nat i * 2)%Z with (2 ^ Z.of_nat (S i))%Z
      by (rewrite Nat2Z.inj_succ, Z.pow_succ_r; lia).
    rewrite IH by lia.
    destruct (Z.testbit fields (Z.of_nat i)); cbn; [|reflexivity].
    by rewrite <- app_assoc.
Qed.

(** Twenty-one rounds of fuel are enough, and more change nothing. *)
Lemma fields_loop_total (fuel : nat) (fields : Z) :
  (21 <= fuel)%nat ->
  fields_to_json_fuel fuel fields
  = Some (JArray (select_from 0 declaration_order fields)).
Proof.
  intros Hfuel. unfold fields_to_json_fuel.
  change 1%Z with (2 ^ Z.of_nat 0)%Z.
  rewrite (fields_loop_from 21 0 fuel fields []) by lia.
  reflexivity.
Qed.

(** [select_from] keeps exactly the names whose bit is set. *)
Lemma select_from_In (names : list string) :
  forall (i : nat) (fields : Z) (n : string),
    In (JString n) (select_from i names fields)
    <-> exists k, names !! k = Some n
                  /\ Z.testbit fields (Z.of_nat (i + k)) = true.
Proof.
  induction names as [|x names IH]; intros i fields n; cbn [select_from].
  - split; [intros []|intros (k & Hk & _); by destruct k].
  - destruct (Z.testbit fields (Z.of_nat i)) eqn:Hbit.
    + cbn [In]. rewrite IH. split.
      * intros [[= ->]|(k & Hk & Hb)].
        -- exists 0%nat. split; [reflexivity|]. by rewrite Nat.add_0_r.
        -- exists (S k). split; [exact Hk|].
           by replace (i + S k)%nat with (S i + k)%nat by lia.
      * intros ([|k] & Hk & Hb).
        -- left. cbn in Hk. by inversion Hk.
        -- right. exists k. split; [exact Hk|].
           by replace (S i + k)%nat with (i + S k)%nat by lia.
    + rewrite IH. split.
      * intros (k & Hk & Hb). exists (S k). split; [exact Hk|].
        by replace (i + S k)%nat with (S i + k)%nat by lia.
      * intros ([|k] & Hk & Hb).
        -- rewrite Nat.add_0_r in Hb. congruence.
        -- exists k. split; [exact Hk|].
           by replace (S i + k)%nat with (i + S k)%nat by lia.
Qed.

(** C9.  For every mask, [fields_to_json] returns the array of the names
    whose bit is set, in the declaration order name, exists, ..., nlink,
    new; the order in which two masks are joined does not matter, and
    NAME | EXISTS gives ["name", "exists"]. *)
Theorem fields_to_json_declaration_order :
  (forall fields,
      fields_to_json fields = Some (JArray (select_from 0 declaration_order fields)))
  /\ (forall a b, fields_to_json (Z.lor a b) = fields_to_json (Z.lor b a))
  /\ fields_to_json (Z.lor WATCHMAN_FIELD_NAME WATCHMAN_FIELD_EXISTS)
     = Some (JArray [JString "name"; JString "exists"])
  /\ fields_to_json (Z.lor WATCHMAN_FIELD_EXISTS WATCHMAN_FIELD_NAME)
     = Some (JArray [JString "name"; JString "exists"])
  /\ fields_to_json (Z.lor WATCHMAN_FIELD_NEWER (Z.lor WATCHMAN_FIELD_SIZE WATCHMAN_FIELD_NAME))
     = Some (JArray [JString "name"; JString "size"; JString "new"]).
Proof.
  assert (Hall : forall fields,
             fields_to_json fields
             = Some (JArray (select_from 0 declaration_order fields))).
  { intros fields. apply fields_loop_total. lia. }
  split; [exact Hall|].
  split; [intros a b; by rewrite Z.lor_comm|].
  repeat split; rewrite Hall; reflexivity.
Qed.

(** ** The protocol codec *)

Lemma string_app_empty_r (s : string) : s +:+ EmptyString = s.
Proof.
  induction s as [|c s IH]; [reflexivity|].
  change (String c (s +:+ EmptyString) = String c s). by rewrite IH.
Qed.

Section ProtocolFacts.

Variable json_loadf : string -> option json * string * string.
Variable json_dumpf : json -> string -> Z * string.
Variable json_dumps : option json -> option string.
Variable null_text : string.

Local Abbreviation read := (watchman_read json_loadf null_text).
Local Abbreviation handle := (watchman_read_and_handle_errors json_loadf json_dumps null_text).
Local Abbreviation send := (watchman_send_simple_cmd json_dumpf null_text).
Local Abbreviation watch := (watchman_watch json_loadf json_dumpf json_dumps null_text).

(** The three kinds are told apart by the messages of [watchman.c]. *)
Lemma error_kinds_of_messages :
  is_protocol_error "No newline at end of reply" = true
  /\ is_schema_error "No newline at end of reply" = false
  /\ is_semantic_error "No newline at end of reply" = false
  /\ is_semantic_error "Got error result from watchman : root not watched" = true
  /\ is_schema_error "Got error result from watchman : root not watched" = false
  /\ is_protocol_error "Got error result from watchman : root not watched" = false
  /\ is_schema_error "Bad clock (null)" = true
  /\ is_protocol_error "Bad clock (null)" = false
  /\ is_semantic_error "Bad clock (null)" = false.
Proof. repeat split; reflexivity. Qed.

(** A value followed by a newline is returned; nothing else changes. *)
Lemma watchman_read_value (w : world) (v : json) (text rest : string) :
  json_loadf (fp_in w) = (Some v, text, String newline rest) ->
  read w = (Some v, World rest (fp_out w) (error_message w) (heap_live w)).
Proof.
  intros Hload. unfold watchman_read, bind, load. rewrite Hload. reflexivity.
Qed.

(** Without a newline after the parse, whatever it gave, the reply is
    refused. *)
Lemma watchman_read_no_newline (w : world) (result : option json) (text rest : string) :
  json_loadf (fp_in w) = (result, text, rest) ->
  (forall rest', rest <> String newline rest') ->
  (read w).1 = None
  /\ error_message (read w).2 = Some "No newline at end of reply".
Proof.
  intros Hload Hrest. unfold watchman_read, bind, load. rewrite Hload.
  destruct rest as [|c rest].
  - destruct result; split; reflexivity.
  - assert (Hc : Ascii.eqb c newline = false).
    { apply Ascii.eqb_neq. intros ->. by apply (Hrest rest). }
    destruct result; cbn; unfold fgetc; cbn; rewrite Hc; split; reflexivity.
Qed.

(** A failed parse is refused, with one of the two messages of
    [watchman_read]. *)
Lemma watchman_read_unparseable (w : world) (text rest : string) :
  json_loadf (fp_in w) = (None, text, rest) ->
  (read w).1 = None
  /\ (error_message (read w).2
        = Some ("Got unparseable or empty result from watchman: " +:+ show_arg null_text (Some text))
      \/ error_message (read w).2 = Some "No newline at end of reply").
Proof.
  intros Hload. unfold watchman_read, bind, load. rewrite Hload.
  destruct rest as [|c rest].
  - split; [reflexivity|]. right. reflexivity.
  - cbn. unfold fgetc. cbn. destruct (Ascii.eqb c newline); cbn.
    + split; [reflexivity|]. left. by rewrite string_app_empty_r.
    + split; [reflexivity|]. right. reflexivity.
Qed.

(** C7.  [watchman_read] runs the parser once and then takes one byte.
    It returns the parsed value, and leaves the error object and the heap
    as they were, when the parse gave a value and that byte is a
    newline; when the parse failed or the byte is no newline it returns
    no value and leaves a protocol error. *)
Theorem watchman_read_requires_value_and_newline
    (w : world) (result : option json) (text rest : string) :
  json_loadf (fp_in w) = (result, text, rest) ->
  (forall v rest', result = Some v -> rest = String newline rest' ->
      read w = (Some v, World rest' (fp_out w) (error_message w) (heap_live w)))
  /\ (result = None \/ (forall rest', rest <> String newline rest') ->
      (read w).1 = None
      /\ exists m, error_message (read w).2 = Some m /\ is_protocol_error m = true).
Proof.
  intros Hload. split.
  - intros v rest' -> ->. by apply (watchman_read_value w v text).
  - intros [->|Hrest].
    + destruct (watchman_read_unparseable w text rest Hload) as [Hnone [Hm|Hm]].
      * split; [exact Hnone|]. eexists. split; [exact Hm|]. reflexivity.
      * split; [exact Hnone|]. eexists. split; [exact Hm|]. reflexivity.
    + destruct (watchman_read_no_newline w result text rest Hload Hrest) as [Hnone Hm].
      split; [exact Hnone|]. eexists. split; [exact Hm|]. reflexivity.
Qed.

(** A sent command leaves the command and a newline on the stream. *)
Lemma watchman_send_simple_cmd_ok (w : world) (args : list string) (out : string) :
  json_dumpf (JArray (map JString args)) (fp_out w) = (0%Z, out) ->
  send args w
  = (0%Z, World (fp_in w) (out +:+ String newline EmptyString)
                (error_message w) (heap_live w)).
Proof.
  intros Hdump. unfold watchman_send_simple_cmd, bind, dump.
  change (fun (items : list json) (arg : string) =>
            json_array_append_new items (json_string (Some arg)))
    with (fun (items : list json) (arg : string) =>
            json_array_append_new items (Some (JString arg))).
  rewrite foldl_append_some. cbn [app]. rewrite Hdump. reflexivity.
Qed.

(** C6, as the code has it.  When the reply read is an object with a
    string under the key error, the generic validation, and the Watch
    operation once its command is sent, fail with a semantic error whose
    message is the daemon's text after the fixed words "Got error result
    from watchman : "; the error object owns one new block. *)
Theorem error_reply_gives_prefixed_message
    (w : world) (members : list (string * json)) (text jtext rest : string) :
  json_loadf (fp_in w) = (Some (JObject members), jtext, String newline rest) ->
  assoc_get "error" members = Some (JString text) ->
  let message := "Got error result from watchman : " +:+ text in
  handle w = (1%Z, World rest (fp_out w) (Some message) (heap_live w + 1))
  /\ (forall path out,
        json_dumpf (JArray [JString "watch"; JString path]) (fp_out w) = (0%Z, out) ->
        watch path w
        = (1%Z, World rest (out +:+ String newline EmptyString)
                      (Some message) (heap_live w + 1)))
  /\ is_semantic_error message = true.
Proof.
  intros Hload Herr message.
  assert (Hhandle : forall w',
             json_loadf (fp_in w')
             = (Some (JObject members), jtext, String newline rest) ->
             handle w'
             = (1%Z, World rest (fp_out w') (Some message) (heap_live w' + 1))).
  { intros w' Hload'. unfold watchman_read_and_handle_errors, bind.
    rewrite (watchman_read_value w' _ _ _ Hload'). cbn. rewrite Herr. cbn.
    unfold watchman_err, bind, alloc, set_error_message. cbn.
    by rewrite string_app_empty_r. }
  split; [by apply Hhandle|]. split; [|reflexivity].
  intros path out Hdump. unfold watchman_watch, bind.
  rewrite (watchman_send_simple_cmd_ok w ["watch"; path] out Hdump). cbn.
  rewrite Hhandle by exact Hload. reflexivity.
Qed.

End ProtocolFacts.

Lemma watchman_read_requires_value_and_newline_witness :
  watchman_read (loadf_reply reply_error) EmptyString world0 = (Some reply_error, world0).
Proof.
  destruct (watchman_read_requires_value_and_newline
              (loadf_reply reply_error) EmptyString world0
              (Some reply_error) EmptyString (String newline EmptyString) eq_refl)
    as [Hvalue _].
  apply (Hvalue reply_error EmptyString); reflexivity.
Defined.

Lemma error_reply_gives_prefixed_message_witness :
  watchman_read_and_handle_errors (loadf_reply reply_error) dumps_null EmptyString world0
  = (1%Z, World EmptyString EmptyString
              (Some "Got error result from watchman : root not watched") 1)
  /\ watchman_watch (loadf_reply reply_error) dumpf_ok dumps_null EmptyString "/tmp" world0
     = (1%Z, World EmptyString (String newline EmptyString)
                 (Some "Got error result from watchman : root not watched") 1).
Proof.
  destruct (error_reply_gives_prefixed_message
              (loadf_reply reply_error) dumpf_ok dumps_null EmptyString world0
              [("error", JString "root not watched")] "root not watched"
              EmptyString EmptyString eq_refl eq_refl)
    as (Hgeneric & Hwatch & _).
  split; [exact Hgeneric|].
  apply (Hwatch "/tmp" EmptyString). reflexivity.
Defined.

(** C6, as it is worded, fails: on the reply {"error":"root not watched"}
    neither path leaves the daemon's text alone as the message. *)
Lemma error_message_is_not_daemon_text :
  error_message
    (watchman_read_and_handle_errors (loadf_reply reply_error) dumps_null
       EmptyString world0).2
  <> Some "root not watched"
  /\ error_message
       (watchman_watch (loadf_reply reply_error) dumpf_ok dumps_null
          EmptyString "/tmp" world0).2
     <> Some "root not watched".
Proof. split; vm_compute; discriminate. Qed.

(** ** The result decoders *)

Lemma json_is_string_value (j : option json) :
  json_is_string j = true -> exists s, json_string_value j = Some s.
Proof. destruct j as [[]|]; try discriminate; cbn; eauto. Qed.

Lemma count_names_nonneg (stats : list watchman_stat_t) : (0 <= count_names stats)%Z.
Proof.
  induction stats as [|s stats IH]; cbn; [lia|].
  unfold owns_name. destruct (stat_name s); lia.
Qed.

Lemma count_names_replicate (n : nat) : count_names (replicate n zero_stat) = 0%Z.
Proof. induction n as [|n IH]; cbn; [reflexivity|]. rewrite IH. reflexivity. Qed.

Lemma count_names_insert (stats : list watchman_stat_t) :
  forall (i : nat) (s s' : watchman_stat_t),
    stats !! i = Some s ->
    count_names (<[i := s']> stats)
    = (count_names stats - owns_name s + owns_name s')%Z.
Proof.
  induction stats as [|x stats IH]; intros [|i] s s' Hi; try discriminate.
  - cbn in Hi. injection Hi as ->. cbn. lia.
  - cbn in Hi. change (<[S i := s']> (x :: stats)) with (x :: <[i := s']> stats).
    cbn [count_names]. rewrite (IH i s s' Hi). lia.
Qed.

(** [watchman_free_query_result] frees one block for each stat that owns a
    name. *)
Lemma dealloc_stats_loop_frees (n : nat) :
  forall (i : nat) (stats : list watchman_stat_t) (w : world),
    dealloc_stats_loop n i stats w
    = (tt, World (fp_in w) (fp_out w) (error_message w)
                 (heap_live w - count_names (take n (drop i stats)))).
Proof.
  induction n as [|n IH]; intros i stats w.
  - rewrite take_0. cbn. destruct w; cbn. do 2 f_equal. lia.
  - cbn [dealloc_stats_loop]. unfold bind.
    destruct (stats !! i) as [s|] eqn:Hi.
    + rewrite (drop_S _ _ _ Hi).
      unfold watchman_dealloc_stat. cbn.
      destruct (stat_name s) eqn:Hname; cbn; rewrite IH; cbn; do 2 f_equal;
        unfold owns_name; rewrite Hname; lia.
    + apply lookup_ge_None_1 in Hi.
      rewrite (drop_ge stats i) by lia. cbn.
      rewrite IH. rewrite (drop_ge stats (S i)) by lia.
      rewrite take_nil. cbn. reflexivity.
Qed.

Section DecoderFacts.

Variable json_dumps : option json -> option string.
Variable null_text : string.
Variable mode_of_int : Z -> Z.
Variable newer_of_int : Z -> Z.

Local Abbreviation floop := (files_loop json_dumps null_text mode_of_int newer_of_int).
Local Abbreviation decode_query :=
  (query_result_of_reply json_dumps null_text mode_of_int newer_of_int).
Local Abbreviation fields_of := (read_stat_fields mode_of_int newer_of_int).

Lemma JSON_ASSERT_pass {A : Type} (cond : option json -> bool) (condarg : option json)
    (msg : string) (done next : io A) (w : world) :
  cond condarg = true ->
  JSON_ASSERT json_dumps null_text cond condarg msg done next w = next w.
Proof. intros H. unfold JSON_ASSERT. by rewrite H. Qed.

Lemma JSON_ASSERT_fail {A : Type} (cond : option json -> bool) (condarg : option json)
    (msg : string) (done next : io A) (w : world) :
  cond condarg = false ->
  JSON_ASSERT json_dumps null_text cond condarg msg done next w
  = done (World (fp_in w) (fp_out w)
                (Some (vsnprintf null_text msg [json_dumps condarg]))
                (heap_live w + 1)).
Proof. intros H. unfold JSON_ASSERT. rewrite H. reflexivity. Qed.

Lemma read_stat_fields_name (statobj : option json) (stat : watchman_stat_t) :
  stat_name (fields_of statobj stat) = stat_name stat.
Proof.
  unfold read_stat_fields.
  destruct (json_object_get statobj "exists"), (json_object_get statobj "mode"),
    (json_object_get statobj "new"), (json_object_get statobj "size"); reflexivity.
Qed.

(** The loop over [files]: each round that succeeds obtains one block, the
    name of the stat it fills; a round that fails leaves a schema error
    and the stats filled so far. *)
Lemma files_loop_spec (n : nat) :
  forall (i : nat) (files : option json) (stats : list watchman_stat_t) (w : world),
    (i + n <= length stats)%nat ->
    (forall j s, (i <= j)%nat -> stats !! j = Some s -> stat_name s = None) ->
    exists (finished : bool) (stats' : list watchman_stat_t) (msg : option string),
      floop n i files stats w
      = ((finished, stats'),
         World (fp_in w) (fp_out w) msg
               (heap_live w + (count_names stats' - count_names stats)
                + (if finished then 0 else 1)))
      /\ length stats' = length stats
      /\ (if finished then msg = error_message w
          else exists m, msg = Some m /\ is_schema_error m = true).
Proof.
  induction n as [|n IH]; intros i files stats w Hlen Htail.
  - exists true, stats, (error_message w). cbn.
    split; [|split; reflexivity].
    destruct w; cbn. do 2 f_equal. lia.
  - cbn [files_loop].
    destruct (stats !! i) as [s0|] eqn:Hi;
      [|apply lookup_ge_None_1 in Hi; lia].
    assert (Hs0 : owns_name s0 = 0%Z).
    { unfold owns_name. by rewrite (Htail i s0 (le_n i) Hi). }
    cbn [default from_option id].
    set (statobj := json_array_get files i).
    assert (Hstep : forall (s' : watchman_stat_t) (w1 : world),
               owns_name s' = 1%Z ->
               fp_in w1 = fp_in w -> fp_out w1 = fp_out w ->
               error_message w1 = error_message w ->
               heap_live w1 = (heap_live w + 1)%Z ->
               exists (finished : bool) (stats' : list watchman_stat_t)
                      (msg : option string),
                 floop n (S i) files (<[i := s']> stats) w1
                 = ((finished, stats'),
                    World (fp_in w) (fp_out w) msg
                          (heap_live w + (count_names stats' - count_names stats)
                           + (if finished then 0 else 1)))
                 /\ length stats' = length stats
                 /\ (if finished then msg = error_message w
                     else exists m, msg = Some m /\ is_schema_error m = true)).
    { intros s' w1 Hs' Hin Hout Herr Hheap.
      destruct (IH (S i) files (<[i := s']> stats) w1)
        as (finished & stats' & msg & Heq & Hlen' & Hmsg).
      - rewrite length_insert. lia.
      - intros j s Hj. rewrite list_lookup_insert_ne by lia. apply Htail. lia.
      - exists finished, stats', msg. rewrite Heq.
        rewrite Hin, Hout, Herr, Hheap in *.
        rewrite (count_names_insert _ _ _ _ Hi), Hs0, Hs'.
        rewrite length_insert in Hlen'.
        split; [|split; assumption].
        do 2 f_equal. lia. }
    destruct (json_is_string statobj) eqn:Hstr.
    + destruct (json_is_string_value _ Hstr) as [name Hname].
      unfold bind, alloc. cbn. apply Hstep; try reflexivity.
      unfold owns_name. cbn. by rewrite Hname.
    + destruct (json_is_object statobj) eqn:Hobj.
      * rewrite JSON_ASSERT_pass by exact Hobj.
        destruct (json_is_string (json_object_get statobj "name")) eqn:Hnm.
        -- rewrite JSON_ASSERT_pass by exact Hnm.
           destruct (json_is_string_value _ Hnm) as [name Hname].
           unfold bind, alloc. cbn. apply Hstep; try reflexivity.
           unfold owns_name. rewrite read_stat_fields_name. cbn. by rewrite Hname.
        -- rewrite JSON_ASSERT_fail by exact Hnm.
           eexists false, stats, _. cbn.
           split; [do 2 f_equal; lia|]. split; [reflexivity|].
           eexists. split; reflexivity.
      * rewrite JSON_ASSERT_fail by exact Hobj.
        eexists false, stats, _. cbn.
        split; [do 2 f_equal; lia|]. split; [reflexivity|].
        eexists. split; reflexivity.
Qed.

Lemma watchman_free_query_result_frees (res : watchman_query_result_t) (w : world) :
  watchman_free_query_result res w
  = (tt, World (fp_in w) (fp_out w) (error_message w) (heap_live w - owned_blocks res)).
Proof.
  unfold watchman_free_query_result, owned_blocks, bind.
  destruct res as [nr stats version clock fresh]. cbn.
  destruct version, clock, stats as [stats|]; cbn;
    rewrite ?dealloc_stats_loop_frees; cbn; rewrite ?drop_0;
    unfold free; cbn; do 2 f_equal; lia.
Qed.

Lemma query_done_frees (res : watchman_query_result_t) (w : world) :
  query_done (Some res) w
  = (None, World (fp_in w) (fp_out w) (error_message w) (heap_live w - owned_blocks res)).
Proof.
  unfold query_done, bind. rewrite watchman_free_query_result_frees. reflexivity.
Qed.

(** A reply object in which version, clock or is_fresh_instance is absent
    or of the wrong type is refused with a schema error; every block
    obtained for the result is given back, and the only block that
    remains is the message of the error. *)
Lemma query_reply_bad_key (members : list (string * json)) (w : world) :
  json_is_string (assoc_get "version" members) = false
  \/ json_is_string (assoc_get "clock" members) = false
  \/ json_is_boolean (assoc_get "is_fresh_instance" members) = false ->
  exists m,
    decode_query (Some (JObject members)) w
    = (None, World (fp_in w) (fp_out w) (Some m) (heap_live w + 1))
    /\ is_schema_error m = true.
Proof.
  intros Hbad. unfold query_result_of_reply.
  rewrite JSON_ASSERT_pass by reflexivity.
  cbn [json_object_get].
  set (files := assoc_get "files" members).
  unfold bind at 1. unfold alloc at 1. cbn [fp_in fp_out error_message heap_live].
  destruct (json_is_array files) eqn:Hfiles.
  2:{ rewrite JSON_ASSERT_fail by exact Hfiles. rewrite query_done_frees.
      cbn [fp_in fp_out error_message heap_live].
      eexists. split; [f_equal; f_equal; unfold owned_blocks; cbn; lia|].
      reflexivity. }
  rewrite JSON_ASSERT_pass by exact Hfiles.
  set (nr := json_array_size files).
  unfold bind at 1. unfold alloc at 1. cbn [fp_in fp_out error_message heap_live].
  unfold bind at 1.
  match goal with
  | |- context [floop nr 0 files (replicate nr zero_stat) ?w2] =>
      destruct (files_loop_spec nr 0 files (replicate nr zero_stat) w2)
        as (finished & stats & msg & Heq & Hlen & Hmsg)
  end.
  { rewrite length_replicate. lia. }
  { intros j s _ Hj. apply lookup_replicate_1 in Hj as [-> _]. reflexivity. }
  rewrite Heq. cbn [fp_in fp_out error_message heap_live].
  rewrite count_names_replicate, length_replicate in *.
  assert (Htake : forall v c f,
             owned_blocks (QueryResult nr (Some stats) v c f)
             = ((match v with Some _ => 1 | None => 0 end)
                + (match c with Some _ => 1 | None => 0 end)
                + count_names stats + 2)%Z).
  { intros v c f. unfold owned_blocks. cbn.
    rewrite take_ge by lia. lia. }
  destruct finished.
  2:{ destruct Hmsg as (m & -> & Hm). cbn [negb].
      rewrite query_done_frees, Htake.
      cbn [fp_in fp_out error_message heap_live].
      exists m. split; [|exact Hm].
      f_equal. f_equal. lia. }
  cbn [negb]. subst msg.
  destruct (json_is_string (assoc_get "version" members)) eqn:Hversion.
  2:{ rewrite JSON_ASSERT_fail by exact Hversion.
      rewrite query_done_frees, Htake.
      cbn [fp_in fp_out error_message heap_live].
      eexists. split; [f_equal; f_equal; lia|].
      reflexivity. }
  rewrite JSON_ASSERT_pass by exact Hversion.
  destruct (json_is_string_value _ Hversion) as [version Hv]. rewrite Hv.
  unfold bind at 1. unfold alloc at 1. cbn [fp_in fp_out error_message heap_live].
  destruct (json_is_string (assoc_get "clock" members)) eqn:Hclock.
  2:{ rewrite JSON_ASSERT_fail by exact Hclock.
      rewrite query_done_frees, Htake.
      cbn [fp_in fp_out error_message heap_live].
      eexists. split; [f_equal; f_equal; lia|].
      reflexivity. }
  rewrite JSON_ASSERT_pass by exact Hclock.
  destruct (json_is_string_value _ Hclock) as [clock Hc]. rewrite Hc.
  unfold bind at 1. unfold alloc at 1. cbn [fp_in fp_out error_message heap_live].
  destruct (json_is_boolean (assoc_get "is_fresh_instance" members)) eqn:Hfresh.
  2:{ rewrite JSON_ASSERT_fail by exact Hfresh.
      rewrite query_done_frees, Htake.
      cbn [fp_in fp_out error_message heap_live].
      eexists. split; [f_equal; f_equal; lia|].
      reflexivity. }
  destruct Hbad as [Hbad|[Hbad|Hbad]]; discriminate Hbad.
Qed.

End DecoderFacts.

Section OperationFacts.

Variable json_loadf : string -> option json * string * string.
Variable json_dumpf : json -> string -> Z * string.
Variable json_dumps : option json -> option string.
Variable null_text : string.
Variable mode_of_int : Z -> Z.
Variable newer_of_int : Z -> Z.

Local Abbreviation do_query :=
  (watchman_do_query json_loadf json_dumpf json_dumps null_text mode_of_int newer_of_int).

(** C5.  When the query was written and the reply read is an object in
    which version, clock or is_fresh_instance is absent or of the wrong
    type, [watchman_do_query] returns no result and leaves a schema
    error; the heap holds one block more than before the call, the
    message of that error, so nothing built for the result remains. *)
Theorem query_reply_bad_key_fails
    (w : world) (query : json) (members : list (string * json))
    (out jtext rest : string) :
  json_dumpf query (fp_out w) = (0%Z, out) ->
  json_loadf (fp_in w) = (Some (JObject members), jtext, String newline rest) ->
  json_is_string (assoc_get "version" members) = false
  \/ json_is_string (assoc_get "clock" members) = false
  \/ json_is_boolean (assoc_get "is_fresh_instance" members) = false ->
  exists m,
    do_query query w
    = (None, World rest (out +:+ String newline EmptyString) (Some m) (heap_live w + 1))
    /\ is_schema_error m = true.
Proof.
  intros Hdump Hload Hbad.
  unfold watchman_do_query, bind, dump. rewrite Hdump. cbn [Z.eqb negb].
  unfold fputc at 1. cbn [fp_in fp_out error_message heap_live].
  match goal with
  | |- context [watchman_read json_loadf null_text ?w1] =>
      rewrite (watchman_read_value json_loadf null_text w1
                 (JObject members) jtext rest Hload)
  end.
  cbn [fp_in fp_out error_message heap_live].
  destruct (query_reply_bad_key json_dumps null_text mode_of_int newer_of_int members
              (World rest (out +:+ String newline EmptyString)
                     (error_message w) (heap_live w)) Hbad)
    as (m & Heq & Hm).
  exists m. split; [exact Heq|exact Hm].
Qed.

(** C1.  An object entry's size goes to the field [newer] and the field
    [size] keeps the zero of [calloc]: from the files
    ["a.txt", {"name":"b.txt","exists":true,"size":42}] the second stat
    has newer 42 (as the field's type holds it) and size 0. *)
Theorem size_is_stored_in_newer :
  (forall n stat,
      read_stat_fields mode_of_int newer_of_int
        (Some (JObject [("size", JInteger n)])) stat
      = set_newer (newer_of_int n) stat)
  /\ (watchman_do_query (loadf_reply reply_query) dumpf_ok json_dumps null_text
        mode_of_int newer_of_int JNull world0).1
     = Some (QueryResult 2
               (Some [ Stat (Some "a.txt") 0 0 0 0;
                       Stat (Some "b.txt") 1 0 (newer_of_int 42) 0 ])
               (Some "3.0") (Some "c:1:2") 0).
Proof. split; reflexivity. Qed.

(** In the loop of [watchman_watch_list], a root that is no string leaves
    a schema error behind, and the loop still hands back its list. *)
Lemma watch_list_loop_bad_root (n : nat) :
  forall (i : nat) (roots : option json) (res : watchman_watch_list_t) (w : world),
    (exists k, (i <= k < i + n)%nat /\ json_is_string (json_array_get roots k) = false) ->
    exists m,
      error_message (watch_list_loop json_dumps null_text n i roots res w).2 = Some m
      /\ is_schema_error m = true.
Proof.
  induction n as [|n IH]; intros i roots res w (k & Hk & Hbad); [lia|].
  cbn [watch_list_loop]. unfold JSON_ASSERT.
  destruct (json_is_string (json_array_get roots i)) eqn:Hi.
  - unfold bind, alloc. apply IH. exists k. split; [|exact Hbad].
    assert (k <> i) by congruence. lia.
  - eexists. split; reflexivity.
Qed.

(** Every reply whose roots hold a value that is no string gives both a
    watch list and a schema error. *)
Lemma watch_list_partial_with_error
    (members : list (string * json)) (items : list json) (w : world) :
  assoc_get "roots" members = Some (JArray items) ->
  (exists k v, items !! k = Some v /\ json_is_string (Some v) = false) ->
  exists res m,
    (watch_list_of_reply json_dumps null_text (Some (JObject members)) w).1 = Some res
    /\ error_message (watch_list_of_reply json_dumps null_text (Some (JObject members)) w).2
       = Some m
    /\ is_schema_error m = true.
Proof.
  intros Hroots (k & v & Hk & Hv).
  unfold watch_list_of_reply, JSON_ASSERT. cbn [json_is_object json_object_get].
  rewrite Hroots. cbn [json_is_array json_array_size].
  unfold bind, alloc. cbn [fp_in fp_out error_message heap_live].
  match goal with
  | |- context [watch_list_loop _ _ ?n ?i ?r ?res ?w1] =>
      destruct (watch_list_loop_bad_root n i r res w1) as (m & Hm & Hs);
      [|destruct (watch_list_loop json_dumps null_text n i r res w1) as [res' w'] eqn:Hloop]
  end.
  - exists k. split; [apply lookup_lt_Some in Hk; lia|]. cbn. by rewrite Hk.
  - exists res', m. cbn in *. auto.
Qed.

(** C4.  On the reply {"roots":["/a",1]} [watchman_watch_list] leaves a
    schema error for the second root and still returns the list built so
    far, two entries of which the second was never filled; the three
    blocks of that list stay allocated beside the message. *)
Theorem watch_list_returns_list_with_error :
  watchman_watch_list (loadf_reply reply_roots_bad) dumpf_ok json_dumps null_text world0
  = (Some (WatchList 2 [Some "/a"; None]),
     World EmptyString (String newline EmptyString)
           (Some ("Got non-string root from watch-list "
                  +:+ show_arg null_text (json_dumps (Some (JInteger 1)))))
           4)
  /\ is_schema_error
       ("Got non-string root from watch-list "
        +:+ show_arg null_text (json_dumps (Some (JInteger 1)))) = true.
Proof.
  split; [|reflexivity].
  cbv [watchman_watch_list watchman_send_simple_cmd bind dump dumpf_ok world0
       fp_in fp_out error_message heap_live foldl json_array_append_new
       json_string ret watchman_err alloc set_error_message fputc Z.eqb negb].
  cbn. by rewrite string_app_empty_r.
Qed.

End OperationFacts.

Lemma query_reply_bad_key_fails_witness :
  exists m,
    watchman_do_query (loadf_reply reply_no_clock) dumpf_ok dumps_null EmptyString
      (fun n => n) (fun n => n) JNull world0
    = (None, World EmptyString (String newline EmptyString) (Some m) 1)
    /\ is_schema_error m = true.
Proof.
  apply (query_reply_bad_key_fails
           (loadf_reply reply_no_clock) dumpf_ok dumps_null EmptyString
           (fun n => n) (fun n => n) world0 JNull
           [ ("version", JString "3.0"); ("is_fresh_instance", JFalse);
             ("files", files_example) ]
           EmptyString EmptyString EmptyString).
  - reflexivity.
  - reflexivity.
  - right. left. reflexivity.
Defined.

(** ** More on the expression compiler *)

(** On well-formed UTF-8 the unchecked [json_string] used by the model is
    the checked one. *)
Lemma json_string_on_text (s : string) :
  utf8_text s = true -> json_string (Some s) = json_string_checked (Some s).
Proof. intros Hs. unfold json_string_checked. by rewrite Hs. Qed.

(** Induction on expressions with the children of a union at hand. *)
Lemma watchman_expression_induction (P : watchman_expression -> Prop) :
  (forall kind clauses, Forall P clauses -> P (union_expr kind clauses)) ->
  (forall clause, P clause -> P (not_expr clause)) ->
  (forall kind, P (static_expr kind)) ->
  (forall t clockspec, P (since_expr t clockspec)) ->
  (forall suffix, P (suffix_expr suffix)) ->
  (forall kind pattern basename, P (match_expr kind pattern basename)) ->
  (forall kind names, P (name_expr kind names)) ->
  (forall type, P (type_expr type)) ->
  forall expr, P expr.
Proof.
  intros Hunion Hnot Hstatic Hsince Hsuffix Hmatch Hname Htype.
  refine (fix IH (expr : watchman_expression) : P expr :=
            match expr with
            | union_expr kind clauses =>
                Hunion kind clauses
                  ((fix children (l : list watchman_expression) : Forall P l :=
                      match l with
                      | [] => @List.Forall_nil _ P
                      | c :: l' => @List.Forall_cons _ P c l' (IH c) (children l')
                      end) clauses)
            | not_expr clause => Hnot clause (IH clause)
            | static_expr kind => Hstatic kind
            | since_expr t clockspec => Hsince t clockspec
            | suffix_expr suffix => Hsuffix suffix
            | match_expr kind pattern basename => Hmatch kind pattern basename
            | name_expr kind names => Hname kind names
            | type_expr type => Htype type
            end).
Qed.

Section MoreCompilerFacts.

Variable layout : name_kind -> list string -> Z.

(** X1.  When the strings of the tree are well-formed UTF-8 and what
    [to_json] reads as the scope of each name node is an index of
    [basename_str], the compiled expression is an array that begins with
    the name of the node's type from [ty_str]; the name is never
    missing. *)
Theorem compiled_expression_begins_with_type_name (expr : watchman_expression) :
  strings_are_text expr = true ->
  scope_reads_in_range layout expr = true ->
  exists tag items,
    table_at ty_str (expression_type_value (expr_ty expr)) = Some tag
    /\ to_json layout expr = JArray (JString tag :: items).
Proof.
  intros _ _.
  destruct expr as [kind clauses|clause|kind|t clockspec|suffix
                    |kind pattern basename|kind names|type].
  - rewrite to_json_union. destruct kind; eexists _, _; split; reflexivity.
  - eexists _, _; split; reflexivity.
  - destruct kind; eexists _, _; split; reflexivity.
  - rewrite to_json_since. eexists _, _; split; reflexivity.
  - eexists _, _; split; reflexivity.
  - destruct kind, basename; eexists _, _; split; reflexivity.
  - rewrite to_json_name. destruct kind; eexists _, _; split; reflexivity.
  - eexists _, _; split; reflexivity.
Qed.

(** X2.  When the count [nr] is positive, the caller's array holds the
    [nr * expression_words] pointers that [memcpy] reads, and its first
    [nr] entries have well-formed UTF-8 strings and scope reads that are
    indices of [basename_str], the AllOf and AnyOf constructors return a
    node that compiles to the tag followed by the compiled first [nr]
    entries, in the order of the array. *)
Theorem union_compiles_first_nr_children
    (expression_words : positive) (kind : union_kind) (nr : Z)
    (expressions : list watchman_expression) :
  (0 < nr)%Z ->
  (nr * Z.pos expression_words <= Z.of_nat (length expressions))%Z ->
  forallb strings_are_text (take (Z.to_nat nr) expressions) = true ->
  forallb (scope_reads_in_range layout) (take (Z.to_nat nr) expressions) = true ->
  exists expr,
    UNION_EXPR expression_words kind nr (Some expressions) = Returned expr
    /\ to_json layout expr
       = JArray (JString (match kind with
                          | UNION_ALLOF => "allof"
                          | UNION_ANYOF => "anyof"
                          end)
                 :: map (to_json layout) (take (Z.to_nat nr) expressions)).
Proof.
  intros Hpos Hlen _ _. unfold UNION_EXPR, UNION_EXPR_build.
  assert (Hnz : (nr =? 0)%Z = false) by (apply Z.eqb_neq; lia).
  assert (Hp : (0 <=? nr)%Z = true) by (apply Z.leb_le; lia).
  assert (Hl : (nr * Z.pos expression_words <=? Z.of_nat (length expressions))%Z = true)
    by (apply Z.leb_le; lia).
  rewrite Hnz, Hp, Hl. cbn [andb negb].
  eexists. split; [reflexivity|]. apply to_json_union.
Qed.

(** X3.  For a pattern that is well-formed UTF-8, the four match
    constructors keep pattern and scope, and the node compiles to the tag,
    the pattern and, when a scope is set, its name "basename" or
    "wholename". *)
Theorem match_expression_compiles_scope
    (kind : match_kind) (pattern : string) (basename : watchman_basename) :
  utf8_text pattern = true ->
  MATCH_EXPR kind (Some pattern) basename = Returned (match_expr kind pattern basename)
  /\ to_json layout (match_expr kind pattern basename)
     = JArray ([JString (match_tag kind); JString pattern] ++ scope_items basename)%list.
Proof. intros _. split; [reflexivity|]. destruct kind, basename; reflexivity. Qed.

(** X4.  The marker nodes compile to the one-element arrays ["empty"],
    ["true"], ["false"], ["exists"]; a suffix node whose suffix is
    well-formed UTF-8 to ["suffix", s]; a type node whose character is a
    well-formed UTF-8 string of its own (a byte from 1 to 127) to
    ["type", c]; and a type node for the character NUL to ["type", ""]. *)
Theorem leaf_expressions_compile :
  (forall kind, to_json layout (static_expr kind) = JArray [JString (static_tag kind)])
  /\ (forall suffix,
      utf8_text suffix = true ->
      watchman_suffix_expression (Some suffix) = Returned (suffix_expr suffix)
      /\ to_json layout (suffix_expr suffix) = JArray [JString "suffix"; JString suffix])
  /\ (forall c, utf8_text (String c EmptyString) = true ->
      to_json layout (type_expr c) = JArray [JString "type"; JString (String c EmptyString)])
  /\ to_json layout (type_expr "000"%char) = JArray [JString "type"; JString EmptyString].
Proof.
  split; [intros []; reflexivity|].
  split; [intros suffix _; split; reflexivity|].
  split; [|reflexivity].
  intros c Hc. cbn. unfold json_string_from_char.
  destruct (Ascii.eqb c "000"%char) eqn:Hnul; [|reflexivity].
  apply Ascii.eqb_eq in Hnul. subst c. discriminate Hc.
Qed.

End MoreCompilerFacts.

Lemma compiled_expression_begins_with_type_name_witness :
  exists tag items,
    table_at ty_str (expression_type_value (expr_ty (name_expr NAME_NAME ["a"]))) = Some tag
    /\ to_json (fun _ _ => 2%Z) (name_expr NAME_NAME ["a"]) = JArray (JString tag :: items).
Proof.
  apply (compiled_expression_begins_with_type_name
           (fun _ _ => 2%Z) (name_expr NAME_NAME ["a"])); reflexivity.
Defined.

Lemma union_compiles_first_nr_children_witness :
  exists expr,
    UNION_EXPR 2 UNION_ALLOF 1 (Some [static_expr STATIC_TRUE; static_expr STATIC_FALSE])
    = Returned expr
    /\ to_json (fun _ _ => 0%Z) expr = JArray [JString "allof"; JArray [JString "true"]].
Proof.
  apply (union_compiles_first_nr_children (fun _ _ => 0%Z) 2%positive UNION_ALLOF 1
           [static_expr STATIC_TRUE; static_expr STATIC_FALSE]).
  - lia.
  - cbn. lia.
  - reflexivity.
  - reflexivity.
Defined.

Lemma match_expression_compiles_scope_witness :
  MATCH_EXPR MATCH_PCRE (Some "a.*") WATCHMAN_BASENAME_WHOLENAME
  = Returned (match_expr MATCH_PCRE "a.*" WATCHMAN_BASENAME_WHOLENAME)
  /\ to_json (fun _ _ => 0%Z) (match_expr MATCH_PCRE "a.*" WATCHMAN_BASENAME_WHOLENAME)
     = JArray [JString "pcre"; JString "a.*"; JString "wholename"].
Proof.
  apply (match_expression_compiles_scope (fun _ _ => 0%Z)
           MATCH_PCRE "a.*" WATCHMAN_BASENAME_WHOLENAME).
  reflexivity.
Defined.

Lemma leaf_expressions_compile_witness :
  to_json (fun _ _ => 0%Z) (type_expr "f"%char) = JArray [JString "type"; JString "f"]
  /\ to_json (fun _ _ => 0%Z) (suffix_expr "py") = JArray [JString "suffix"; JString "py"].
Proof.
  destruct (leaf_expressions_compile (fun _ _ => 0%Z)) as (_ & Hsuffix & Htype & _).
  split.
  - apply (Htype "f"%char). reflexivity.
  - destruct (Hsuffix "py" eq_refl) as [_ Hjson]. exact Hjson.
Defined.

(** X5.  Where no Name or IName node occurs, the compiled form does not
    depend on what is read through the wrong union member: two layouts
    give the same array. *)
Theorem name_free_compiles_alike
    (layout1 layout2 : name_kind -> list string -> Z) (expr : watchman_expression) :
  name_free expr = true ->
  to_json layout1 expr = to_json layout2 expr.
Proof.
  induction expr as [kind clauses IH|clause IH|kind|t clockspec|suffix
                     |kind pattern basename|kind names|type]
    using watchman_expression_induction; intros Hfree; try reflexivity.
  - rewrite !to_json_union. do 2 f_equal.
    cbn in Hfree. induction IH as [|c l Hc _ IHl]; [reflexivity|].
    cbn in Hfree. apply andb_prop in Hfree as [Hc' Hl].
    cbn. rewrite (Hc Hc'), (IHl Hl). reflexivity.
  - rewrite !to_json_not. cbn in Hfree. by rewrite (IH Hfree).
  - discriminate Hfree.
Qed.

Lemma name_free_compiles_alike_witness :
  to_json (fun _ _ => 0%Z) (not_expr (suffix_expr "c"))
  = to_json (fun _ _ => 2%Z) (not_expr (suffix_expr "c")).
Proof.
  apply (name_free_compiles_alike (fun _ _ => 0%Z) (fun _ _ => 2%Z)). reflexivity.
Defined.

(** ** More on the fields codec *)

Lemma select_from_agree (names : list string) :
  forall (i : nat) (a b : Z),
    (forall k, (k < length names)%nat ->
               Z.testbit a (Z.of_nat (i + k)) = Z.testbit b (Z.of_nat (i + k))) ->
    select_from i names a = select_from i names b.
Proof.
  induction names as [|n names IH]; intros i a b Hbits; [reflexivity|].
  cbn [select_from].
  assert (Hrest : select_from (S i) names a = select_from (S i) names b).
  { apply IH. intros k Hk.
    replace (S i + k)%nat with (i + S k)%nat by lia. apply Hbits. cbn. lia. }
  specialize (Hbits 0%nat). rewrite Nat.add_0_r in Hbits.
  rewrite Hbits by (cbn; lia). by rewrite Hrest.
Qed.

Lemma field_bits_low (a : Z) (k : nat) :
  (k < 21)%nat ->
  Z.testbit (Z.land a field_bits) (Z.of_nat k) = Z.testbit a (Z.of_nat k).
Proof.
  intros Hk. change field_bits with (Z.ones 21).
  rewrite Z.land_spec, Z.ones_spec_low by lia. apply andb_true_r.
Qed.

Lemma declaration_order_NoDup : NoDup declaration_order.
Proof. by apply (bool_decide_unpack _). Qed.

(** The output tells, for each of the twenty-one fields, whether its bit
    is set. *)
Lemma selected_names_give_bits (a b : Z) (k : nat) :
  (k < 21)%nat ->
  select_from 0 declaration_order a = select_from 0 declaration_order b ->
  Z.testbit a (Z.of_nat k) = true -> Z.testbit b (Z.of_nat k) = true.
Proof.
  intros Hk Heq Ha.
  destruct (lookup_lt_is_Some_2 declaration_order k) as [n Hn]; [cbn; lia|].
  assert (Hin : In (JString n) (select_from 0 declaration_order a)).
  { apply select_from_In. exists k. split; [exact Hn|exact Ha]. }
  rewrite Heq in Hin. apply select_from_In in Hin as (k' & Hn' & Hb).
  by rewrite (NoDup_lookup _ _ _ _ declaration_order_NoDup Hn Hn').
Qed.

Lemma fields_to_json_selects (fields : Z) :
  fields_to_json fields = Some (JArray (select_from 0 declaration_order fields)).
Proof. apply fields_loop_total. lia. Qed.

(** X6.  Bits of the mask that name no field are ignored: the output is
    that of the mask cut to its twenty-one low bits. *)
Theorem fields_to_json_ignores_other_bits (fields : Z) :
  fields_to_json fields = fields_to_json (Z.land fields field_bits).
Proof.
  rewrite !fields_to_json_selects. do 2 f_equal.
  apply select_from_agree. intros k Hk. cbn in Hk. cbn [Nat.add].
  by rewrite field_bits_low by lia.
Qed.

(** X7.  The output determines the mask up to the bits that name no
    field: two masks with the same output agree on their twenty-one low
    bits. *)
Theorem fields_to_json_determines_mask (a b : Z) :
  fields_to_json a = fields_to_json b ->
  Z.land a field_bits = Z.land b field_bits.
Proof.
  rewrite !fields_to_json_selects. intros Heq.
  apply (f_equal (fun o => match o with Some (JArray l) => l | _ => [] end)) in Heq.
  change (select_from 0 declaration_order a = select_from 0 declaration_order b) in Heq.
  apply Z.bits_inj'. intros n Hn.
  destruct (Z.lt_ge_cases n 21) as [Hlow|Hhigh].
  - replace n with (Z.of_nat (Z.to_nat n)) by lia.
    rewrite !field_bits_low by lia.
    destruct (Z.testbit a (Z.of_nat (Z.to_nat n))) eqn:Ha.
    + symmetry. apply (selected_names_give_bits a b); [lia|exact Heq|exact Ha].
    + destruct (Z.testbit b (Z.of_nat (Z.to_nat n))) eqn:Hb; [|reflexivity].
      assert (Ha' : Z.testbit a (Z.of_nat (Z.to_nat n)) = true)
        by (apply (selected_names_give_bits b a); [lia|by symmetry|exact Hb]).
      congruence.
  - change field_bits with (Z.ones 21).
    rewrite !Z.land_spec, Z.ones_spec_high by lia.
    by rewrite !andb_false_r.
Qed.

Lemma fields_to_json_determines_mask_witness :
  Z.land (Z.lor WATCHMAN_FIELD_NAME (2 ^ 25)) field_bits = Z.land WATCHMAN_FIELD_NAME field_bits.
Proof.
  apply (fields_to_json_determines_mask (Z.lor WATCHMAN_FIELD_NAME (2 ^ 25)) WATCHMAN_FIELD_NAME).
  reflexivity.
Defined.

(** ** More on the protocol codec *)

Section MoreProtocolFacts.

Variable json_loadf : string -> option json * string * string.
Variable json_dumpf : json -> string -> Z * string.
Variable json_dumps : option json -> option string.
Variable null_text : string.

Local Abbreviation read := (watchman_read json_loadf null_text).
Local Abbreviation handle := (watchman_read_and_handle_errors json_loadf json_dumps null_text).
Local Abbreviation send := (watchman_send_simple_cmd json_dumpf null_text).
Local Abbreviation watch := (watchman_watch json_loadf json_dumpf json_dumps null_text).
Local Abbreviation watch_del :=
  (watchman_watch_del json_loadf json_dumpf json_dumps null_text).
Local Abbreviation watch_list :=
  (watchman_watch_list json_loadf json_dumpf json_dumps null_text).

(** A failed write leaves the message and still a newline on the stream. *)
Lemma watchman_send_simple_cmd_failed
    (w : world) (args : list string) (status : Z) (out : string) :
  json_dumpf (JArray (map JString args)) (fp_out w) = (status, out) ->
  status <> 0%Z ->
  send args w
  = (1%Z, World (fp_in w) (out +:+ String newline EmptyString)
                (Some "Failed to send simple watchman command") (heap_live w + 1)).
Proof.
  intros Hdump Hstatus. unfold watchman_send_simple_cmd, bind, dump.
  change (fun (items : list json) (arg : string) =>
            json_array_append_new items (json_string (Some arg)))
    with (fun (items : list json) (arg : string) =>
            json_array_append_new items (Some (JString arg))).
  rewrite foldl_append_some. cbn [app]. rewrite Hdump.
  apply Z.eqb_neq in Hstatus. rewrite Hstatus. reflexivity.
Qed.

(** X8.  When the command cannot be written, Watch, WatchDel and the watch
    list fail with the message "Failed to send simple watchman command"
    and read nothing from the stream. *)
Theorem simple_commands_stop_at_failed_write
    (w : world) (command : list string) (status : Z) (out : string) :
  json_dumpf (JArray (map JString command)) (fp_out w) = (status, out) ->
  status <> 0%Z ->
  let w' := World (fp_in w) (out +:+ String newline EmptyString)
                  (Some "Failed to send simple watchman command") (heap_live w + 1) in
  (forall path, command = ["watch"; path] -> watch path w = (1%Z, w'))
  /\ (forall path, command = ["watch-del"; path] -> watch_del path w = (1%Z, w'))
  /\ (command = ["watch-list"] -> watch_list w = (None, w')).
Proof.
  intros Hdump Hstatus w'. repeat split.
  - intros path ->. unfold watchman_watch, bind.
    by rewrite (watchman_send_simple_cmd_failed w _ status out Hdump Hstatus).
  - intros path ->. unfold watchman_watch_del, bind.
    by rewrite (watchman_send_simple_cmd_failed w _ status out Hdump Hstatus).
  - intros ->. unfold watchman_watch_list, bind.
    by rewrite (watchman_send_simple_cmd_failed w _ status out Hdump Hstatus).
Qed.

(** X9.  Once a reply is read, the generic validation succeeds exactly
    when the reply is an object without the key error, and then it leaves
    the error object and the heap as they were; a reply that is no object
    is a schema error, and a key error of any type is a semantic error. *)
Theorem generic_validation_verdict
    (w : world) (v : json) (text rest : string) :
  json_loadf (fp_in w) = (Some v, text, String newline rest) ->
  (json_is_object (Some v) = true /\ json_object_get (Some v) "error" = None ->
   handle w = (0%Z, World rest (fp_out w) (error_message w) (heap_live w)))
  /\ (json_is_object (Some v) = false ->
      (handle w).1 = 1%Z
      /\ heap_live (handle w).2 = (heap_live w + 1)%Z
      /\ exists m, error_message (handle w).2 = Some m /\ is_schema_error m = true)
  /\ (json_object_get (Some v) "error" <> None ->
      (handle w).1 = 1%Z
      /\ heap_live (handle w).2 = (heap_live w + 1)%Z
      /\ exists m, error_message (handle w).2 = Some m /\ is_semantic_error m = true).
Proof.
  intros Hload.
  assert (Hread := watchman_read_value json_loadf null_text w v text rest Hload).
  unfold watchman_read_and_handle_errors, bind. rewrite Hread.
  repeat split.
  - intros [Hobj Herr]. rewrite Hobj. cbn [negb]. rewrite Herr. reflexivity.
  - rewrite H. reflexivity.
  - rewrite H. reflexivity.
  - rewrite H. cbn. eexists. split; reflexivity.
  - destruct v; try (exfalso; apply H; reflexivity).
    cbn in *. destruct (assoc_get "error" members); [reflexivity|contradiction].
  - destruct v; try (exfalso; apply H; reflexivity).
    cbn in *. destruct (assoc_get "error" members); [reflexivity|contradiction].
  - destruct v; try (exfalso; apply H; reflexivity).
    cbn in *. destruct (assoc_get "error" members); [|contradiction].
    cbn. eexists. split; reflexivity.
Qed.

(** X10.  For a path that is well-formed UTF-8, when the command is
    written and the reply read is an object without the key error, Watch
    and WatchDel return 0; the stream has the command and a newline, and
    the error object and the heap are as before. *)
Theorem watch_and_watch_del_succeed
    (w : world) (path : string) (members : list (string * json))
    (text rest : string) :
  utf8_text path = true ->
  json_loadf (fp_in w) = (Some (JObject members), text, String newline rest) ->
  assoc_get "error" members = None ->
  (forall out,
      json_dumpf (JArray [JString "watch"; JString path]) (fp_out w) = (0%Z, out) ->
      watch path w
      = (0%Z, World rest (out +:+ String newline EmptyString)
                    (error_message w) (heap_live w)))
  /\ (forall out,
      json_dumpf (JArray [JString "watch-del"; JString path]) (fp_out w) = (0%Z, out) ->
      watch_del path w
      = (0%Z, World rest (out +:+ String newline EmptyString)
                    (error_message w) (heap_live w))).
Proof.
  intros _ Hload Herr.
  assert (Hhandle : forall w',
             fp_in w' = fp_in w ->
             handle w' = (0%Z, World rest (fp_out w') (error_message w') (heap_live w'))).
  { intros w' Hin. rewrite <- Hin in Hload.
    unfold watchman_read_and_handle_errors, bind.
    rewrite (watchman_read_value json_loadf null_text w' _ text rest Hload).
    cbn. by rewrite Herr. }
  split; intros out Hdump.
  - unfold watchman_watch, bind.
    rewrite (watchman_send_simple_cmd_ok json_dumpf null_text w ["watch"; path] out Hdump).
    cbn [Z.eqb negb]. by rewrite Hhandle.
  - unfold watchman_watch_del, bind.
    rewrite (watchman_send_simple_cmd_ok json_dumpf null_text w ["watch-del"; path] out Hdump).
    cbn [Z.eqb negb]. by rewrite Hhandle.
Qed.

(** X11.  With a failed parse and no newline after it, [watchman_read]
    calls [watchman_err] twice: two blocks are obtained and only the
    second message, "No newline at end of reply", is kept. *)
Theorem watchman_read_keeps_last_message
    (w : world) (text rest : string) :
  json_loadf (fp_in w) = (None, text, rest) ->
  (forall rest', rest <> String newline rest') ->
  (read w).1 = None
  /\ error_message (read w).2 = Some "No newline at end of reply"
  /\ heap_live (read w).2 = (heap_live w + 2)%Z.
Proof.
  intros Hload Hrest. unfold watchman_read, bind, load. rewrite Hload.
  destruct rest as [|c rest].
  - cbn. repeat split. lia.
  - assert (Hc : Ascii.eqb c newline = false).
    { apply Ascii.eqb_neq. intros ->. by apply (Hrest rest). }
    cbn. unfold fgetc. cbn. rewrite Hc. cbn. repeat split. lia.
Qed.

End MoreProtocolFacts.

Lemma simple_commands_stop_at_failed_write_witness :
  watchman_watch loadf_nothing dumpf_fail dumps_null EmptyString "/tmp" world0
  = (1%Z, World EmptyString (String newline EmptyString)
              (Some "Failed to send simple watchman command") 1).
Proof.
  destruct (simple_commands_stop_at_failed_write
              loadf_nothing dumpf_fail dumps_null EmptyString world0
              ["watch"; "/tmp"] (-1)%Z EmptyString eq_refl)
    as (Hwatch & _ & _); [discriminate|].
  apply (Hwatch "/tmp"). reflexivity.
Defined.

Lemma generic_validation_verdict_witness :
  watchman_read_and_handle_errors (loadf_reply reply_ok) dumps_null EmptyString world0
  = (0%Z, world0).
Proof.
  destruct (generic_validation_verdict
              (loadf_reply reply_ok) dumps_null EmptyString world0
              reply_ok EmptyString EmptyString eq_refl)
    as (Hok & _ & _).
  apply Hok. split; reflexivity.
Defined.

Lemma watch_and_watch_del_succeed_witness :
  watchman_watch_del (loadf_reply reply_ok) dumpf_ok dumps_null EmptyString "/tmp" world0
  = (0%Z, World EmptyString (String newline EmptyString) None 0).
Proof.
  destruct (watch_and_watch_del_succeed
              (loadf_reply reply_ok) dumpf_ok dumps_null EmptyString world0 "/tmp"
              [("version", JString "3.0"); ("watch", JString "/tmp")]
              EmptyString EmptyString eq_refl eq_refl eq_refl)
    as (_ & Hdel).
  apply (Hdel EmptyString). reflexivity.
Defined.

Lemma watchman_read_keeps_last_message_witness :
  (watchman_read loadf_nothing EmptyString world0).1 = None
  /\ error_message (watchman_read loadf_nothing EmptyString world0).2
     = Some "No newline at end of reply"
  /\ heap_live (watchman_read loadf_nothing EmptyString world0).2 = 2%Z.
Proof.
  apply (watchman_read_keeps_last_message
           loadf_nothing EmptyString world0 "end of input" EmptyString eq_refl).
  discriminate.
Defined.

(** ** More on the result decoders *)

Lemma count_roots_replicate (n : nat) : count_roots (replicate n None) = 0%Z.
Proof. induction n as [|n IH]; cbn; [reflexivity|exact IH]. Qed.

Lemma count_roots_insert (roots : list (option string)) :
  forall (i : nat) (s : string),
    roots !! i = Some None ->
    count_roots (<[i := Some s]> roots) = (count_roots roots + 1)%Z.
Proof.
  induction roots as [|x roots IH]; intros [|i] s Hi; try discriminate.
  - cbn in Hi. injection Hi as ->. cbn. lia.
  - cbn in Hi. change (<[S i := Some s]> (x :: roots)) with (x :: <[i := Some s]> roots).
    cbn [count_roots]. rewrite (IH i s Hi). destruct x; lia.
Qed.

(** [watchman_free_watch_list] frees one block for each root that was
    filled. *)
Lemma free_roots_loop_frees (n : nat) :
  forall (i : nat) (roots : list (option string)) (w : world),
    free_roots_loop n i roots w
    = (tt, World (fp_in w) (fp_out w) (error_message w)
                 (heap_live w - count_roots (take n (drop i roots)))).
Proof.
  induction n as [|n IH]; intros i roots w.
  - rewrite take_0. cbn. destruct w; cbn. do 2 f_equal. lia.
  - cbn [free_roots_loop]. unfold bind.
    destruct (roots !! i) as [r|] eqn:Hi.
    + rewrite (drop_S _ _ _ Hi). cbn.
      destruct r; cbn; rewrite IH; cbn; do 2 f_equal; lia.
    + apply lookup_ge_None_1 in Hi.
      rewrite (drop_ge roots i) by lia. cbn.
      rewrite IH. rewrite (drop_ge roots (S i)) by lia.
      rewrite take_nil. cbn. reflexivity.
Qed.

Section MoreDecoderFacts.

Variable json_loadf : string -> option json * string * string.
Variable json_dumpf : json -> string -> Z * string.
Variable json_dumps : option json -> option string.
Variable null_text : string.
Variable mode_of_int : Z -> Z.
Variable newer_of_int : Z -> Z.

Local Abbreviation wloop := (watch_list_loop json_dumps null_text).
Local Abbreviation decode_list := (watch_list_of_reply json_dumps null_text).
Local Abbreviation watch_list :=
  (watchman_watch_list json_loadf json_dumpf json_dumps null_text).
Local Abbreviation floop := (files_loop json_dumps null_text mode_of_int newer_of_int).
Local Abbreviation decode_query :=
  (query_result_of_reply json_dumps null_text mode_of_int newer_of_int).
Local Abbreviation do_query :=
  (watchman_do_query json_loadf json_dumpf json_dumps null_text mode_of_int newer_of_int).

(** The loop over the roots: each round that succeeds obtains one block,
    the copy of the root; a round that fails leaves a schema error. *)
Lemma watch_list_loop_spec (n : nat) :
  forall (i : nat) (roots : option json) (res : watchman_watch_list_t) (w : world),
    (i + n <= length (wl_roots res))%nat ->
    (forall j x, (i <= j)%nat -> wl_roots res !! j = Some x -> x = None) ->
    exists (finished : bool) (rs : list (option string)) (msg : option string),
      wloop n i roots res w
      = (WatchList (wl_nr res) rs,
         World (fp_in w) (fp_out w) msg
               (heap_live w + (count_roots rs - count_roots (wl_roots res))
                + (if finished then 0 else 1)))
      /\ length rs = length (wl_roots res)
      /\ (if finished then msg = error_message w
          else exists m, msg = Some m /\ is_schema_error m = true).
Proof.
  induction n as [|n IH]; intros i roots [nr rs0] w Hlen Htail; cbn [wl_nr wl_roots] in *.
  - exists true, rs0, (error_message w). cbn.
    split; [|split; reflexivity].
    destruct w; cbn. do 2 f_equal. lia.
  - cbn [watch_list_loop]. unfold JSON_ASSERT.
    destruct (json_is_string (json_array_get roots i)) eqn:Hstr.
    + destruct (json_is_string_value _ Hstr) as [s Hs]. rewrite Hs.
      destruct (rs0 !! i) as [x|] eqn:Hi; [|apply lookup_ge_None_1 in Hi; lia].
      assert (x = None) by (apply (Htail i x); [lia|exact Hi]). subst x.
      unfold bind at 1. unfold alloc at 1. cbn [fp_in fp_out error_message heap_live wl_nr wl_roots].
      match goal with
      | |- context [wloop n (S i) roots ?res1 ?w1] =>
          destruct (IH (S i) roots res1 w1) as (finished & rs & msg & Heq & Hlen' & Hmsg)
      end.
      * cbn. rewrite length_insert. lia.
      * cbn. intros j x Hj. rewrite list_lookup_insert_ne by lia. apply Htail. lia.
      * cbn [wl_nr wl_roots fp_in fp_out error_message heap_live] in *.
        exists finished, rs, msg. rewrite Heq.
        rewrite (count_roots_insert _ _ _ Hi). rewrite length_insert in Hlen'.
        split; [|split; assumption]. do 2 f_equal. lia.
    + exists false, rs0. eexists. cbn.
      split; [do 2 f_equal; lia|]. split; [reflexivity|].
      eexists. split; reflexivity.
Qed.

(** The loop over roots that are all strings copies them in order. *)
Lemma watch_list_loop_strings (n : nat) :
  forall (i nr : nat) (names : list string) (rs : list (option string)) (w : world),
    (i + n = length names)%nat ->
    length rs = length names ->
    wloop n i (Some (JArray (map JString names))) (WatchList nr rs) w
    = (WatchList nr (take i rs ++ map Some (drop i names))%list,
       World (fp_in w) (fp_out w) (error_message w) (heap_live w + Z.of_nat n)).
Proof.
  induction n as [|n IH]; intros i nr names rs w Hi Hlen.
  - cbn. rewrite (drop_ge names i) by lia. rewrite take_ge by lia.
    cbn. rewrite app_nil_r. destruct w; cbn. do 2 f_equal. lia.
  - cbn [watch_list_loop]. unfold JSON_ASSERT. cbn [json_array_get].
    destruct (lookup_lt_is_Some_2 names i) as [name Hname]; [lia|].
    rewrite list_lookup_fmap, Hname. cbn [fmap option_fmap option_map json_is_string].
    unfold bind at 1. unfold alloc at 1.
    cbn [fp_in fp_out error_message heap_live wl_nr wl_roots json_string_value].
    rewrite IH by (rewrite ?length_insert; lia).
    cbn [fp_in fp_out error_message heap_live].
    destruct (lookup_lt_is_Some_2 rs i) as [x Hx]; [lia|].
    rewrite (take_S_r (<[i := Some name]> rs) i (Some name))
      by (apply list_lookup_insert_eq; lia).
    rewrite take_insert_ge by lia.
    rewrite (drop_S _ _ _ Hname). cbn [map].
    rewrite <- app_assoc. cbn [app].
    do 2 f_equal. lia.
Qed.

Lemma watch_list_after_read (w : world) (v : json) (text rest out : string) :
  json_dumpf (JArray [JString "watch-list"]) (fp_out w) = (0%Z, out) ->
  json_loadf (fp_in w) = (Some v, text, String newline rest) ->
  watch_list w
  = decode_list (Some v)
      (World rest (out +:+ String newline EmptyString) (error_message w) (heap_live w)).
Proof.
  intros Hdump Hload. unfold watchman_watch_list, bind.
  rewrite (watchman_send_simple_cmd_ok json_dumpf null_text w ["watch-list"] out Hdump).
  cbn [Z.eqb negb].
  match goal with
  | |- context [watchman_read json_loadf null_text ?w1] =>
      rewrite (watchman_read_value json_loadf null_text w1 v text rest Hload)
  end.
  reflexivity.
Qed.

(** X12.  When the command is written and the reply read is an object
    whose roots are an array of strings, the watch list holds these
    strings in the order of the array, its count is their number, no error
    is set, and the list owns one block for each root and two more. *)
Theorem watch_list_copies_roots_in_order
    (w : world) (members : list (string * json)) (names : list string)
    (text rest out : string) :
  json_dumpf (JArray [JString "watch-list"]) (fp_out w) = (0%Z, out) ->
  json_loadf (fp_in w) = (Some (JObject members), text, String newline rest) ->
  assoc_get "roots" members = Some (JArray (map JString names)) ->
  watch_list w
  = (Some (WatchList (length names) (map Some names)),
     World rest (out +:+ String newline EmptyString) (error_message w)
           (heap_live w + Z.of_nat (length names) + 2)).
Proof.
  intros Hdump Hload Hroots.
  rewrite (watch_list_after_read w _ text rest out Hdump Hload).
  unfold watch_list_of_reply, JSON_ASSERT. cbn [json_is_object json_object_get].
  rewrite Hroots. cbn [json_is_array json_array_size].
  unfold bind, alloc. cbn [fp_in fp_out error_message heap_live].
  rewrite length_map.
  rewrite (watch_list_loop_strings (length names) 0)
    by (rewrite ?length_replicate; lia).
  rewrite take_0, drop_0. cbn [app fp_in fp_out error_message heap_live].
  do 2 f_equal. lia.
Qed.

(** X13.  When the reply read is no object, or has no key roots, or its
    roots are no array, the watch list operation returns no list and
    leaves a schema error; the only block obtained is the message. *)
Theorem watch_list_refuses_bad_shape
    (w : world) (v : json) (text rest out : string) :
  json_dumpf (JArray [JString "watch-list"]) (fp_out w) = (0%Z, out) ->
  json_loadf (fp_in w) = (Some v, text, String newline rest) ->
  json_is_array (json_object_get (Some v) "roots") = false ->
  exists m,
    watch_list w
    = (None, World rest (out +:+ String newline EmptyString) (Some m) (heap_live w + 1))
    /\ is_schema_error m = true.
Proof.
  intros Hdump Hload Hroots.
  rewrite (watch_list_after_read w _ text rest out Hdump Hload).
  unfold watch_list_of_reply, JSON_ASSERT.
  destruct (json_is_object (Some v)) eqn:Hobj.
  - rewrite Hroots. eexists. split; reflexivity.
  - eexists. split; reflexivity.
Qed.

(** X14.  Whatever the array of roots holds, the list that the watch list
    operation returns can be given to [watchman_free_watch_list]: after
    that the heap is as before the operation, but for the message when an
    error was set. *)
Theorem watch_list_then_free_is_balanced
    (w : world) (members : list (string * json)) (items : list json)
    (text rest out : string) :
  json_dumpf (JArray [JString "watch-list"]) (fp_out w) = (0%Z, out) ->
  json_loadf (fp_in w) = (Some (JObject members), text, String newline rest) ->
  assoc_get "roots" members = Some (JArray items) ->
  exists res w1,
    watch_list w = (Some res, w1)
    /\ wl_nr res = length items
    /\ ((error_message w1 = error_message w
         /\ heap_live (watchman_free_watch_list res w1).2 = heap_live w)
        \/ (exists m, error_message w1 = Some m /\ is_schema_error m = true
            /\ heap_live (watchman_free_watch_list res w1).2 = (heap_live w + 1)%Z)).
Proof.
  intros Hdump Hload Hroots.
  rewrite (watch_list_after_read w _ text rest out Hdump Hload).
  unfold watch_list_of_reply, JSON_ASSERT. cbn [json_is_object json_object_get].
  rewrite Hroots. cbn [json_is_array json_array_size].
  unfold bind, alloc. cbn [fp_in fp_out error_message heap_live].
  set (nr := length items).
  match goal with
  | |- context [wloop nr 0 ?r ?res0 ?w0] =>
      destruct (watch_list_loop_spec nr 0 r res0 w0)
        as (finished & rs & msg & Heq & Hlen & Hmsg)
  end.
  { cbn. rewrite length_replicate. lia. }
  { cbn. intros j x _ Hj. by apply lookup_replicate_1 in Hj as [-> _]. }
  cbn [wl_nr wl_roots fp_in fp_out error_message heap_live] in *.
  rewrite count_roots_replicate, length_replicate in *.
  rewrite Heq. eexists _, _. split; [reflexivity|]. split; [reflexivity|].
  unfold watchman_free_watch_list, bind. cbn [wl_nr wl_roots].
  rewrite free_roots_loop_frees. unfold free.
  cbn [fp_in fp_out error_message heap_live snd].
  rewrite drop_0, take_ge by lia.
  destruct finished.
  - left. split; [exact Hmsg|lia].
  - right. destruct Hmsg as (m & -> & Hm). exists m. repeat split; [exact Hm|lia].
Qed.

End MoreDecoderFacts.

Lemma watch_list_copies_roots_in_order_witness :
  watchman_watch_list (loadf_reply reply_roots) dumpf_ok dumps_null EmptyString world0
  = (Some (WatchList 2 [Some "/a"; Some "/b"]),
     World EmptyString (String newline EmptyString) None 4).
Proof.
  apply (watch_list_copies_roots_in_order
           (loadf_reply reply_roots) dumpf_ok dumps_null EmptyString world0
           [("roots", JArray [JString "/a"; JString "/b"])] ["/a"; "/b"]
           EmptyString EmptyString EmptyString); reflexivity.
Defined.

Lemma watch_list_refuses_bad_shape_witness :
  exists m,
    watchman_watch_list (loadf_reply reply_ok) dumpf_ok dumps_null EmptyString world0
    = (None, World EmptyString (String newline EmptyString) (Some m) 1)
    /\ is_schema_error m = true.
Proof.
  apply (watch_list_refuses_bad_shape
           (loadf_reply reply_ok) dumpf_ok dumps_null EmptyString world0
           reply_ok EmptyString EmptyString EmptyString); reflexivity.
Defined.

Lemma watch_list_then_free_is_balanced_witness :
  exists res w1,
    watchman_watch_list (loadf_reply reply_roots_bad) dumpf_ok dumps_null EmptyString world0
    = (Some res, w1)
    /\ wl_nr res = 2%nat
    /\ ((error_message w1 = None
         /\ heap_live (watchman_free_watch_list res w1).2 = 0%Z)
        \/ (exists m, error_message w1 = Some m /\ is_schema_error m = true
            /\ heap_live (watchman_free_watch_list res w1).2 = 1%Z)).
Proof.
  apply (watch_list_then_free_is_balanced
           (loadf_reply reply_roots_bad) dumpf_ok dumps_null EmptyString world0
           [("roots", JArray [JString "/a"; JInteger 1])] [JString "/a"; JInteger 1]
           EmptyString EmptyString EmptyString); reflexivity.
Defined.

Section MoreQueryFacts.

Variable json_loadf : string -> option json * string * string.
Variable json_dumpf : json -> string -> Z * string.
Variable json_dumps : option json -> option string.
Variable null_text : string.
Variable mode_of_int : Z -> Z.
Variable newer_of_int : Z -> Z.

Local Abbreviation floop := (files_loop json_dumps null_text mode_of_int newer_of_int).
Local Abbreviation decode_query :=
  (query_result_of_reply json_dumps null_text mode_of_int newer_of_int).
Local Abbreviation do_query :=
  (watchman_do_query json_loadf json_dumpf json_dumps null_text mode_of_int newer_of_int).

(** A loop over [files] that runs to its end has given a name to every
    stat of its range and has left the stats before it alone. *)
Lemma files_loop_filled (n : nat) :
  forall (i : nat) (files : option json) (stats stats' : list watchman_stat_t)
         (w w' : world),
    (i + n <= length stats)%nat ->
    floop n i files stats w = ((true, stats'), w') ->
    (forall j, (j < i)%nat -> stats' !! j = stats !! j)
    /\ (forall j, (i <= j < i + n)%nat ->
                  exists s name, stats' !! j = Some s /\ stat_name s = Some name).
Proof.
  induction n as [|n IH]; intros i files stats stats' w w' Hlen Hloop.
  - cbn in Hloop. injection Hloop as <- <-. split; [reflexivity|]. intros j Hj. lia.
  - cbn [files_loop] in Hloop.
    assert (Hstep : forall s1 w1,
               (exists name, stat_name s1 = Some name) ->
               floop n (S i) files (<[i := s1]> stats) w1 = ((true, stats'), w') ->
               (forall j, (j < i)%nat -> stats' !! j = stats !! j)
               /\ (forall j, (i <= j < i + S n)%nat ->
                      exists s name, stats' !! j = Some s /\ stat_name s = Some name)).
    { intros s1 w1 [name Hname] Hrec.
      destruct (IH (S i) files (<[i := s1]> stats) stats' w1 w') as [Hbefore Hrange];
        [rewrite length_insert; lia|exact Hrec|].
      split.
      - intros j Hj. rewrite Hbefore by lia. apply list_lookup_insert_ne. lia.
      - intros j Hj. destruct (decide (j = i)) as [->|Hne].
        + exists s1, name. split; [|exact Hname].
          rewrite Hbefore by lia. apply list_lookup_insert_eq. lia.
        + apply Hrange. lia. }
    destruct (json_is_string (json_array_get files i)) eqn:Hstr.
    + destruct (json_is_string_value _ Hstr) as [name Hname].
      unfold bind, alloc in Hloop. cbn in Hloop.
      apply Hstep in Hloop; [exact Hloop|]. exists name. cbn. exact Hname.
    + destruct (json_is_object (json_array_get files i)) eqn:Hobj.
      * rewrite JSON_ASSERT_pass in Hloop by exact Hobj.
        destruct (json_is_string (json_object_get (json_array_get files i) "name")) eqn:Hnm.
        -- rewrite JSON_ASSERT_pass in Hloop by exact Hnm.
           destruct (json_is_string_value _ Hnm) as [name Hname].
           unfold bind, alloc in Hloop. cbn in Hloop.
           apply Hstep in Hloop; [exact Hloop|]. exists name.
           rewrite read_stat_fields_name. cbn. exact Hname.
        -- rewrite JSON_ASSERT_fail in Hloop by exact Hnm. discriminate Hloop.
      * rewrite JSON_ASSERT_fail in Hloop by exact Hobj. discriminate Hloop.
Qed.

(** The loop over files that are all bare strings gives each stat its
    name and leaves the other fields at zero. *)
Lemma files_loop_strings (n : nat) :
  forall (i : nat) (names : list string) (stats : list watchman_stat_t) (w : world),
    (i + n = length names)%nat ->
    length stats = length names ->
    (forall j s, (i <= j)%nat -> stats !! j = Some s -> s = zero_stat) ->
    floop n i (Some (JArray (map JString names))) stats w
    = ((true, (take i stats ++ map (fun name => Stat (Some name) 0 0 0 0) (drop i names))%list),
       World (fp_in w) (fp_out w) (error_message w) (heap_live w + Z.of_nat n)).
Proof.
  induction n as [|n IH]; intros i names stats w Hi Hlen Hzero.
  - cbn. rewrite (drop_ge names i) by lia. rewrite take_ge by lia.
    cbn. rewrite app_nil_r. destruct w; cbn. do 2 f_equal. lia.
  - cbn [files_loop json_array_get].
    destruct (lookup_lt_is_Some_2 names i) as [name Hname]; [lia|].
    rewrite list_lookup_fmap, Hname. cbn [fmap option_fmap option_map json_is_string].
    destruct (lookup_lt_is_Some_2 stats i) as [s Hs]; [lia|].
    rewrite Hs. rewrite (Hzero i s (le_n i) Hs).
    unfold bind at 1. unfold alloc at 1.
    cbn [fp_in fp_out error_message heap_live json_string_value default from_option id].
    rewrite IH.
    + cbn [fp_in fp_out error_message heap_live].
      rewrite (take_S_r (<[i := set_name (Some name) zero_stat]> stats) i
                 (set_name (Some name) zero_stat))
        by (apply list_lookup_insert_eq; lia).
      rewrite take_insert_ge by lia.
      rewrite (drop_S _ _ _ Hname). cbn [map].
      rewrite <- app_assoc. cbn [app].
      do 2 f_equal. lia.
    + lia.
    + rewrite length_insert. lia.
    + intros j s' Hj. rewrite list_lookup_insert_ne by lia. apply Hzero. lia.
Qed.

(** The two ways out of the decoding of a query reply: no result, a
    message and one block for it; or a result built from a loop that ran
    to its end, two strings and a truth value, owning every block that was
    obtained. *)
Lemma query_reply_cases (obj : option json) (w : world) :
  (exists m,
      decode_query obj w
      = (None, World (fp_in w) (fp_out w) (Some m) (heap_live w + 1)))
  \/ (exists stats version clock w2 w3,
        let files := json_object_get obj "files" in
        let nr := json_array_size files in
        floop nr 0 files (replicate nr zero_stat) w2 = ((true, stats), w3)
        /\ length stats = nr
        /\ json_string_value (json_object_get obj "version") = Some version
        /\ json_string_value (json_object_get obj "clock") = Some clock
        /\ decode_query obj w
           = (Some (QueryResult nr (Some stats) (Some version) (Some clock)
                      (json_is_true (json_object_get obj "is_fresh_instance"))),
              World (fp_in w) (fp_out w) (error_message w)
                    (heap_live w + count_names stats + 4))).
Proof.
  remember (decode_query obj w) as d eqn:Hd.
  unfold query_result_of_reply in Hd.
  destruct (json_is_object obj) eqn:Hobj.
  2:{ left. rewrite JSON_ASSERT_fail in Hd by exact Hobj. subst d.
      eexists. reflexivity. }
  rewrite JSON_ASSERT_pass in Hd by exact Hobj.
  set (files := json_object_get obj "files") in *.
  unfold bind at 1 in Hd. unfold alloc at 1 in Hd.
  cbn [fp_in fp_out error_message heap_live] in Hd.
  destruct (json_is_array files) eqn:Hfiles.
  2:{ left. rewrite JSON_ASSERT_fail in Hd by exact Hfiles.
      rewrite query_done_frees in Hd.
      cbn [fp_in fp_out error_message heap_live] in Hd. subst d.
      eexists. f_equal. f_equal. unfold owned_blocks. cbn. lia. }
  rewrite JSON_ASSERT_pass in Hd by exact Hfiles.
  set (nr := json_array_size files) in *.
  unfold bind at 1 in Hd. unfold alloc at 1 in Hd.
  cbn [fp_in fp_out error_message heap_live] in Hd.
  unfold bind at 1 in Hd.
  match type of Hd with
  | context [floop nr 0 files (replicate nr zero_stat) ?w2] =>
      destruct (files_loop_spec json_dumps null_text mode_of_int newer_of_int
                  nr 0 files (replicate nr zero_stat) w2)
        as (finished & stats & msg & Heq & Hlen & Hmsg);
      [rewrite length_replicate; lia
      |intros j s _ Hj; by apply lookup_replicate_1 in Hj as [-> _]
      |]
  end.
  rewrite Heq in Hd. cbn [fp_in fp_out error_message heap_live] in Hd.
  rewrite count_names_replicate in Hd, Heq. rewrite length_replicate in Hlen.
  assert (Htake : forall v c f,
             owned_blocks (QueryResult nr (Some stats) v c f)
             = ((match v with Some _ => 1 | None => 0 end)
                + (match c with Some _ => 1 | None => 0 end)
                + count_names stats + 2)%Z).
  { intros v c f. unfold owned_blocks. cbn. rewrite take_ge by lia. lia. }
  destruct finished.
  2:{ left. destruct Hmsg as (m & -> & _). cbn [negb] in Hd.
      rewrite query_done_frees, Htake in Hd.
      cbn [fp_in fp_out error_message heap_live] in Hd. subst d.
      exists m. f_equal. f_equal. lia. }
  cbn [negb] in Hd. subst msg.
  destruct (json_is_string (json_object_get obj "version")) eqn:Hversion.
  2:{ left. rewrite JSON_ASSERT_fail in Hd by exact Hversion.
      rewrite query_done_frees, Htake in Hd.
      cbn [fp_in fp_out error_message heap_live] in Hd. subst d.
      eexists. f_equal. f_equal. lia. }
  rewrite JSON_ASSERT_pass in Hd by exact Hversion.
  destruct (json_is_string_value _ Hversion) as [version Hv]. rewrite Hv in Hd.
  unfold bind at 1 in Hd. unfold alloc at 1 in Hd.
  cbn [fp_in fp_out error_message heap_live] in Hd.
  destruct (json_is_string (json_object_get obj "clock")) eqn:Hclock.
  2:{ left. rewrite JSON_ASSERT_fail in Hd by exact Hclock.
      rewrite query_done_frees, Htake in Hd.
      cbn [fp_in fp_out error_message heap_live] in Hd. subst d.
      eexists. f_equal. f_equal. lia. }
  rewrite JSON_ASSERT_pass in Hd by exact Hclock.
  destruct (json_is_string_value _ Hclock) as [clock Hc]. rewrite Hc in Hd.
  unfold bind at 1 in Hd. unfold alloc at 1 in Hd.
  cbn [fp_in fp_out error_message heap_live] in Hd.
  destruct (json_is_boolean (json_object_get obj "is_fresh_instance")) eqn:Hfresh.
  2:{ left. rewrite JSON_ASSERT_fail in Hd by exact Hfresh.
      rewrite query_done_frees, Htake in Hd.
      cbn [fp_in fp_out error_message heap_live] in Hd. subst d.
      eexists. f_equal. f_equal. lia. }
  rewrite JSON_ASSERT_pass in Hd by exact Hfresh.
  right. exists stats, version, clock. eexists _, _.
  cbn zeta. split; [exact Heq|]. split; [exact Hlen|].
  split; [exact Hv|]. split; [exact Hc|].
  subst d. unfold ret. f_equal. f_equal. lia.
Qed.

Lemma do_query_after_read (w : world) (query v : json) (text rest out : string) :
  json_dumpf query (fp_out w) = (0%Z, out) ->
  json_loadf (fp_in w) = (Some v, text, String newline rest) ->
  do_query query w
  = decode_query (Some v)
      (World rest (out +:+ String newline EmptyString) (error_message w) (heap_live w)).
Proof.
  intros Hdump Hload. unfold watchman_do_query, bind, dump. rewrite Hdump.
  cbn [Z.eqb negb]. unfold fputc at 1. cbn [fp_in fp_out error_message heap_live].
  match goal with
  | |- context [watchman_read json_loadf null_text ?w1] =>
      rewrite (watchman_read_value json_loadf null_text w1 v text rest Hload)
  end.
  reflexivity.
Qed.

(** X15.  Whatever reply is read, a query either returns a result and
    leaves the error object alone, and then [watchman_free_query_result]
    on that result brings the heap back to where it was before the query;
    or it returns no result, sets a message, and the heap holds one block
    more, that message. *)
Theorem query_result_then_free_is_balanced
    (w : world) (query v : json) (text rest out : string) :
  json_dumpf query (fp_out w) = (0%Z, out) ->
  json_loadf (fp_in w) = (Some v, text, String newline rest) ->
  match do_query query w with
  | (Some r, w1) =>
      error_message w1 = error_message w
      /\ heap_live (watchman_free_query_result r w1).2 = heap_live w
  | (None, w1) =>
      (exists m, error_message w1 = Some m)
      /\ heap_live w1 = (heap_live w + 1)%Z
  end.
Proof.
  intros Hdump Hload.
  rewrite (do_query_after_read w query v text rest out Hdump Hload).
  match goal with
  | |- context [decode_query (Some v) ?w0] =>
      destruct (query_reply_cases (Some v) w0)
        as [(m & ->)|(stats & version & clock & w2 & w3 & _ & Hlen & _ & _ & ->)]
  end.
  - cbn. split; [by exists m|reflexivity].
  - cbn zeta in *. split; [reflexivity|].
    rewrite watchman_free_query_result_frees.
    unfold owned_blocks.
    cbn [qr_nr qr_stats qr_version qr_clock heap_live snd].
    rewrite take_ge by lia. lia.
Qed.

(** X16.  A result that a query returns is complete: its count is the
    number of entries of files, it has that many stats, every stat has a
    name, and version, clock and is_fresh_instance are those of the
    reply. *)
Theorem query_result_is_complete
    (w w1 : world) (query v : json) (text rest out : string)
    (r : watchman_query_result_t) :
  json_dumpf query (fp_out w) = (0%Z, out) ->
  json_loadf (fp_in w) = (Some v, text, String newline rest) ->
  do_query query w = (Some r, w1) ->
  qr_nr r = json_array_size (json_object_get (Some v) "files")
  /\ (exists stats,
        qr_stats r = Some stats
        /\ length stats = qr_nr r
        /\ Forall (fun s => exists name, stat_name s = Some name) stats)
  /\ json_string_value (json_object_get (Some v) "version") = qr_version r
  /\ json_string_value (json_object_get (Some v) "clock") = qr_clock r
  /\ json_is_true (json_object_get (Some v) "is_fresh_instance") = qr_is_fresh_instance r
  /\ qr_version r <> None /\ qr_clock r <> None.
Proof.
  intros Hdump Hload.
  rewrite (do_query_after_read w query v text rest out Hdump Hload).
  match goal with
  | |- context [decode_query (Some v) ?w0] =>
      destruct (query_reply_cases (Some v) w0)
        as [(m & ->)|(stats & version & clock & w2 & w3 & Hloop & Hlen & Hv & Hc & ->)]
  end; [discriminate|].
  cbn zeta in *. intros [= <- <-]. cbn [qr_nr qr_stats qr_version qr_clock qr_is_fresh_instance].
  split; [reflexivity|]. split.
  - exists stats. split; [reflexivity|]. split; [exact Hlen|].
    apply Forall_lookup. intros j s Hj.
    edestruct files_loop_filled as [_ Hrange]; [|exact Hloop|].
    { rewrite length_replicate. lia. }
    destruct (Hrange j) as (s' & name & Hs' & Hname).
    { apply lookup_lt_Some in Hj. lia. }
    rewrite Hj in Hs'. injection Hs' as <-. by exists name.
  - rewrite Hv, Hc. repeat split; discriminate.
Qed.

(** X17.  A reply whose files are bare strings, with version, clock and
    is_fresh_instance in place, decodes to one stat for each string, in
    the order of the array, with that name and every other field zero. *)
Theorem names_only_reply_decodes_in_order
    (w : world) (query : json) (members : list (string * json))
    (names : list string) (version clock : string) (fresh : json)
    (text rest out : string) :
  json_dumpf query (fp_out w) = (0%Z, out) ->
  json_loadf (fp_in w) = (Some (JObject members), text, String newline rest) ->
  assoc_get "files" members = Some (JArray (map JString names)) ->
  assoc_get "version" members = Some (JString version) ->
  assoc_get "clock" members = Some (JString clock) ->
  assoc_get "is_fresh_instance" members = Some fresh ->
  json_is_boolean (Some fresh) = true ->
  do_query query w
  = (Some (QueryResult (length names)
             (Some (map (fun name => Stat (Some name) 0 0 0 0) names))
             (Some version) (Some clock) (json_is_true (Some fresh))),
     World rest (out +:+ String newline EmptyString) (error_message w)
           (heap_live w + Z.of_nat (length names) + 4)).
Proof.
  intros Hdump Hload Hfiles Hversion Hclock Hfresh Hbool.
  rewrite (do_query_after_read w query _ text rest out Hdump Hload).
  unfold query_result_of_reply, JSON_ASSERT.
  cbn [json_is_object json_object_get].
  rewrite Hfiles, Hversion, Hclock, Hfresh, Hbool.
  cbn [json_is_array json_is_string json_array_size json_string_value].
  rewrite length_map.
  unfold bind, alloc. cbn [fp_in fp_out error_message heap_live].
  rewrite (files_loop_strings (length names) 0).
  - rewrite take_0, drop_0. cbn [app negb fp_in fp_out error_message heap_live].
    unfold ret. do 2 f_equal. lia.
  - lia.
  - by rewrite length_replicate.
  - intros j s _ Hj. by apply lookup_replicate_1 in Hj as [-> _].
Qed.

(** X18.  When the query cannot be written, [watchman_do_query] returns
    no result with the message "Failed to send watchman query " and a dump
    of the query; it writes no newline and reads nothing. *)
Theorem query_stops_at_failed_write
    (w : world) (query : json) (status : Z) (out : string) :
  json_dumpf query (fp_out w) = (status, out) ->
  status <> 0%Z ->
  do_query query w
  = (None,
     World (fp_in w) out
           (Some ("Failed to send watchman query "
                  +:+ show_arg null_text (json_dumps (Some query))))
           (heap_live w + 1)).
Proof.
  intros Hdump Hstatus. unfold watchman_do_query, bind, dump. rewrite Hdump.
  apply Z.eqb_neq in Hstatus. rewrite Hstatus. cbn.
  by rewrite string_app_empty_r.
Qed.

End MoreQueryFacts.

Lemma query_result_then_free_is_balanced_witness :
  match watchman_do_query (loadf_reply reply_query) dumpf_ok dumps_null EmptyString
          (fun n => n) (fun n => n) JNull world0 with
  | (Some r, w1) =>
      error_message w1 = error_message world0
      /\ heap_live (watchman_free_query_result r w1).2 = heap_live world0
  | (None, w1) =>
      (exists m, error_message w1 = Some m)
      /\ heap_live w1 = (heap_live world0 + 1)%Z
  end.
Proof.
  exact (query_result_then_free_is_balanced
           (loadf_reply reply_query) dumpf_ok dumps_null EmptyString
           (fun n => n) (fun n => n) world0 JNull reply_query
           EmptyString EmptyString EmptyString eq_refl eq_refl).
Defined.

Lemma query_result_is_complete_witness :
  exists stats,
    Some [ Stat (Some "a.txt") 0 0 0 0; Stat (Some "b.txt") 1 0 42 0 ] = Some stats
    /\ length stats = 2%nat
    /\ Forall (fun s => exists name, stat_name s = Some name) stats.
Proof.
  destruct (query_result_is_complete
              (loadf_reply reply_query) dumpf_ok dumps_null EmptyString
              (fun n => n) (fun n => n) world0
              (World EmptyString (String newline EmptyString) None 6)
              JNull reply_query EmptyString EmptyString EmptyString
              (QueryResult 2
                 (Some [ Stat (Some "a.txt") 0 0 0 0; Stat (Some "b.txt") 1 0 42 0 ])
                 (Some "3.0") (Some "c:1:2") 0)
              eq_refl eq_refl eq_refl)
    as (_ & Hstats & _).
  exact Hstats.
Defined.

Lemma names_only_reply_decodes_in_order_witness :
  watchman_do_query
    (loadf_reply (JObject [ ("files", JArray [JString "a"; JString "b"]);
                            ("version", JString "3.0"); ("clock", JString "c:1:2");
                            ("is_fresh_instance", JTrue) ]))
    dumpf_ok dumps_null EmptyString (fun n => n) (fun n => n) JNull world0
  = (Some (QueryResult 2 (Some [ Stat (Some "a") 0 0 0 0; Stat (Some "b") 0 0 0 0 ])
             (Some "3.0") (Some "c:1:2") 1),
     World EmptyString (String newline EmptyString) None 6).
Proof.
  apply (names_only_reply_decodes_in_order
           (loadf_reply (JObject [ ("files", JArray [JString "a"; JString "b"]);
                                   ("version", JString "3.0"); ("clock", JString "c:1:2");
                                   ("is_fresh_instance", JTrue) ]))
           dumpf_ok dumps_null EmptyString (fun n => n) (fun n => n) world0 JNull
           [ ("files", JArray [JString "a"; JString "b"]);
             ("version", JString "3.0"); ("clock", JString "c:1:2");
             ("is_fresh_instance", JTrue) ]
           ["a"; "b"] "3.0" "c:1:2" JTrue EmptyString EmptyString EmptyString);
    reflexivity.
Defined.

Lemma query_stops_at_failed_write_witness :
  watchman_do_query loadf_nothing dumpf_fail dumps_null "(null)"
    (fun n => n) (fun n => n) JNull world0
  = (None, World EmptyString EmptyString
                 (Some "Failed to send watchman query (null)") 1).
Proof.
  apply (query_stops_at_failed_write
           loadf_nothing dumpf_fail dumps_null "(null)" (fun n => n) (fun n => n)
           world0 JNull (-1)%Z EmptyString eq_refl).
  discriminate.
Defined.

(** ** Releasing expressions *)

Lemma expression_blocks_nonneg (expr : watchman_expression) :
  (0 <= expression_blocks expr)%Z.
Proof.
  induction expr as [kind clauses IH|clause IH|kind|t clockspec|suffix
                     |kind pattern basename|kind names|type]
    using watchman_expression_induction; cbn [expression_blocks]; try lia.
  - induction IH as [|c l Hc _ IHl]; cbn in *; lia.
  - destruct t; lia.
Qed.


(** ** Daemon discovery and the query command *)

Section DiscoveryFacts.

Variable popen_get_sockname : Z + string.
Variable json_loadf_whole : string -> option json * string.
Variable null_text : string.
Variable watchman_sock_connect : option string -> io (option watchman_connection_t).

Local Abbreviation connect :=
  (watchman_connect popen_get_sockname json_loadf_whole null_text watchman_sock_connect).

(** X20.  [watchman_connect] reaches the socket layer exactly when the
    command's output parses to an object with a string under sockname, and
    then with that string.  In every other case it opens nothing and sets
    a message: the number of the error when the command could not be
    started, and else a text that begins "Got bad JSON from watchman
    get-sockname: ". *)
Theorem connect_validates_discovery (w : world) :
  (forall errno,
      popen_get_sockname = inl errno ->
      connect w
      = (None, World (fp_in w) (fp_out w)
                     (Some ("Could not watchman get-sockname: " +:+ show_int errno))
                     (heap_live w + 1)))
  /\ (forall output json text,
      popen_get_sockname = inr output ->
      json_loadf_whole output = (json, text) ->
      (forall sockname,
          json_string_value (json_object_get json "sockname") = Some sockname ->
          connect w = watchman_sock_connect (Some sockname) w)
      /\ (json_string_value (json_object_get json "sockname") = None ->
          exists m,
            connect w = (None, World (fp_in w) (fp_out w) (Some m) (heap_live w + 1))
            /\ matches_format "Got bad JSON from watchman get-sockname: %s" m = true)).
Proof.
  split.
  - intros errno Hpopen. unfold watchman_connect. rewrite Hpopen. cbn.
    by rewrite string_app_empty_r.
  - intros output json text Hpopen Hload. unfold watchman_connect.
    rewrite Hpopen, Hload. split.
    + intros sockname Hname.
      destruct json as [[]|]; try discriminate Hname.
      cbn in *. destruct (assoc_get "sockname" members) as [[]|]; try discriminate Hname.
      cbn in *. by rewrite Hname.
    + intros Hname.
      destruct json as [v|]; [|eexists; split; reflexivity].
      destruct (json_is_object (Some v)) eqn:Hobj; [|eexists; split; reflexivity].
      cbn [negb]. destruct v; try discriminate Hobj. cbn in *.
      destruct (assoc_get "sockname" members) as [x|]; [|eexists; split; reflexivity].
      destruct x; try discriminate Hname; cbn; eexists; split; reflexivity.
Qed.

End DiscoveryFacts.

Lemma connect_validates_discovery_witness :
  watchman_connect (inr "{}") (fun _ => (Some (JObject [("sockname", JString "/tmp/sock")]), EmptyString))
    EmptyString (fun _ => ret (Some (Connection 3))) world0
  = (Some (Connection 3), world0)
  /\ watchman_connect (inl 2%Z) (fun _ => (None, EmptyString))
       EmptyString (fun _ => ret (Some (Connection 3))) world0
     = (None, World EmptyString EmptyString (Some "Could not watchman get-sockname: 2") 1).
Proof.
  split.
  - destruct (connect_validates_discovery
                (inr "{}")
                (fun _ => (Some (JObject [("sockname", JString "/tmp/sock")]), EmptyString))
                EmptyString (fun _ => ret (Some (Connection 3))) world0)
      as [_ Hparsed].
    destruct (Hparsed "{}" (Some (JObject [("sockname", JString "/tmp/sock")]))
                EmptyString eq_refl eq_refl) as [Hconnect _].
    apply (Hconnect "/tmp/sock"). reflexivity.
  - destruct (connect_validates_discovery
                (inl 2%Z) (fun _ => (None, EmptyString))
                EmptyString (fun _ => ret (Some (Connection 3))) world0)
      as [Hfailed _].
    apply (Hfailed 2%Z). reflexivity.
Defined.

(** X21.  For a path that is well-formed UTF-8, an expression whose
    strings are, and scope reads of its name nodes that are indices of
    [basename_str], [watchman_query] hands [watchman_do_query], for every
    mask, the command ["query", path, {"expression": the compiled
    expression, "fields": the selected field names}]: both keys are always
    present. *)
Theorem watchman_query_sends_command
    (layout : name_kind -> list string -> Z)
    (json_loadf : string -> option json * string * string)
    (json_dumpf : json -> string -> Z * string)
    (json_dumps : option json -> option string)
    (null_text : string) (mode_of_int newer_of_int : Z -> Z)
    (fs_path : string) (expr : watchman_expression) (fields : Z) :
  utf8_text fs_path = true ->
  strings_are_text expr = true ->
  scope_reads_in_range layout expr = true ->
  watchman_query layout json_loadf json_dumpf json_dumps null_text
    mode_of_int newer_of_int fs_path expr fields
  = watchman_do_query json_loadf json_dumpf json_dumps null_text mode_of_int newer_of_int
      (JArray [ JString "query"; JString fs_path;
                JObject [ ("expression", to_json layout expr);
                          ("fields", JArray (select_from 0 declaration_order fields)) ] ]).
Proof.
  intros _ _ _. unfold watchman_query. rewrite fields_to_json_selects. reflexivity.
Qed.

Lemma watchman_query_sends_command_witness :
  watchman_query (fun _ _ => 0%Z) loadf_nothing dumpf_fail dumps_null "(null)"
    (fun n => n) (fun n => n) "/tmp" (suffix_expr "py") WATCHMAN_FIELD_NAME
  = watchman_do_query loadf_nothing dumpf_fail dumps_null "(null)" (fun n => n) (fun n => n)
      (JArray [ JString "query"; JString "/tmp";
                JObject [ ("expression", JArray [JString "suffix"; JString "py"]);
                          ("fields", JArray [JString "name"]) ] ]).
Proof.
  apply (watchman_query_sends_command (fun _ _ => 0%Z) loadf_nothing dumpf_fail dumps_null
           "(null)" (fun n => n) (fun n => n) "/tmp" (suffix_expr "py") WATCHMAN_FIELD_NAME);
    reflexivity.
Defined.
